(** * generate-icons.py: the PWA icon generator, embedded and verified

    The script loads one logo, crops a region around its centre, pads the
    crop to a square and, for each size of [ICON_SIZES], composites the
    resized square on a dark canvas and saves it as a PNG.

    Layout of the development:
    - [Py]       : the fragment of Python arithmetic the script uses (ints,
                   floats, mixed operations, [min], [//], [int]);
    - [Rounding] : rounding to 53 bits, to state what binary64 computes;
    - [PIL]      : rasters with the Pillow operations the script calls;
    - [Gen]      : the script itself, one definition per step;
    - [Console]  : what the script prints;
    - the theorems: binary64 arithmetic first, then the script. *)

From Stdlib Require Import ZArith QArith Qround Lia SpecFloat.
From stdpp Require Import gmap strings list pretty.

Local Open Scope Z_scope.

(** ** Python numbers *)

Module Py.

(** A float implementation: conversion from [int], decimal literals, the
    three operations the script applies to floats, and the exact rational
    a float stands for.  Comparison with an [int], floor division and
    [int(...)] are derived from the value, as CPython computes them
    exactly. *)
Class PyFloat (F : Type) := {
  float_of_int : Z -> F;
  float_lit : Z -> Z -> F;
  fmul : F -> F -> F;
  fadd : F -> F -> F;
  fsub : F -> F -> F;
  float_value : F -> Q
}.

(** Floats as the rationals they approximate: every operation is exact.
    This instance serves as a cross-check of [binary64] only. *)
#[export] Instance exactQ : PyFloat Q := {|
  float_of_int := inject_Z;
  float_lit := fun n d => Qmake n (Z.to_pos d);
  fmul := Qmult;
  fadd := Qplus;
  fsub := Qminus;
  float_value := fun q => q
|}.

(** IEEE 754 binary64, CPython's [float]: 53 bits of precision, round to
    nearest even after every operation.  A decimal literal denotes the
    double nearest to it, which is the correctly rounded quotient of its
    numerator and denominator (both exact doubles here). *)
Definition b64_of_Z (z : Z) : spec_float := binary_normalize 53 1024 z 0 false.

Definition b64_value (x : spec_float) : Q :=
  match x with
  | S754_finite s m e =>
      let v := if s then Z.neg m else Z.pos m in
      if 0 <=? e then inject_Z (v * 2 ^ e) else Qmake v (Z.to_pos (2 ^ (- e)))
  | _ => 0%Q
  end.
(* Infinities and NaN read as 0: no product or sum of image dimensions
   reaches them. *)

Definition binary64 : PyFloat spec_float := {|
  float_of_int := b64_of_Z;
  float_lit := fun n d => SFdiv 53 1024 (b64_of_Z n) (b64_of_Z d);
  fmul := SFmul 53 1024;
  fadd := SFadd 53 1024;
  fsub := SFsub 53 1024;
  float_value := b64_value
|}.

Section Numbers.
Context {F : Type} {FO : PyFloat F}.

(** A Python number is an [int] or a [float]. *)
Inductive num := Int (n : Z) | Float (x : F).

Definition value (a : num) : Q :=
  match a with Int n => inject_Z n | Float x => float_value x end.

Definition to_float (a : num) : F :=
  match a with Int n => float_of_int n | Float x => x end.

(** [a * b], [a + b], [a - b]: int arithmetic on two ints, otherwise the
    int operand is converted and the float operation applies. *)
Definition mul (a b : num) : num :=
  match a, b with
  | Int m, Int n => Int (m * n)
  | _, _ => Float (fmul (to_float a) (to_float b))
  end.

Definition add (a b : num) : num :=
  match a, b with
  | Int m, Int n => Int (m + n)
  | _, _ => Float (fadd (to_float a) (to_float b))
  end.

Definition sub (a b : num) : num :=
  match a, b with
  | Int m, Int n => Int (m - n)
  | _, _ => Float (fsub (to_float a) (to_float b))
  end.

(** [a < b], exact also between an int and a float. *)
Definition ltb (a b : num) : bool := negb (Qle_bool (value b) (value a)).

(** [min(a, b)]: the first argument unless the second is strictly less. *)
Definition min (a b : num) : num := if ltb b a then b else a.

(** [a // n] for an int [n]: floor division; on a float the result is
    the float holding the floor of the quotient. *)
Definition floordiv (a : num) (n : Z) : num :=
  match a with
  | Int m => Int (m / n)
  | Float x => Float (float_of_int (Qfloor (float_value x / inject_Z n)))
  end.

(** [int(a)]: truncation toward zero. *)
Definition trunc (q : Q) : Z := Z.quot (Qnum q) (Z.pos (Qden q)).

Definition int (a : num) : Z :=
  match a with Int n => n | Float x => trunc (float_value x) end.
End Numbers.

Arguments num F : clear implicits.

End Py.

(** ** Rounding to 53 bits *)

Module Rounding.

(** Round to nearest, ties to even, of [N / H]. *)
Definition rne (N H : Z) : Z :=
  let q := N / H in
  let r := N mod H in
  if 2 * r <? H then q
  else if H <? 2 * r then q + 1
  else if Z.even q then q else q + 1.

(** A non-negative integer rounded to 53 significant bits. *)
Definition round53 (N : Z) : Z :=
  let s := Z.max 0 (Z.log2 N - 52) in
  rne N (2 ^ s) * 2 ^ s.

(** The record [shr_1] reaches after [k] shifts of [M]: quotient, round
    bit and sticky bit. *)
Definition shifted (M : Z) (k : Z) (mrs : shr_record) : Prop :=
  shr_m mrs = M / 2 ^ k /\
  shr_r mrs = (2 ^ k <=? 2 * (M mod 2 ^ k)) /\
  shr_s mrs = negb (2 * (M mod 2 ^ k) =? 0) && negb (2 * (M mod 2 ^ k) =? 2 ^ k).

(** [Rep k x n]: the float [x] is zero or positive, and stands for
    [n / 2^k]. *)
Definition Rep (k : Z) (x : spec_float) (n : Z) : Prop :=
  match x with
  | S754_zero _ => n = 0
  | S754_finite false m e => - k <= e /\ Z.pos m < 2 ^ 53 /\ n = Z.pos m * 2 ^ (e + k)
  | _ => False
  end.

End Rounding.

(** ** Rasters and the Pillow operations the script calls *)

Module PIL.

Inductive Mode := RGB | RGBA.

(** A pixel holds four bands; the fourth is the alpha channel of an RGBA
    raster and is not part of an RGB raster. *)
Record pixel := mkPixel { band_r : Z; band_g : Z; band_b : Z; band_a : Z }.

(** [im.mode], [im.size] and the pixel data [im.getpixel((x, y))]. *)
Record Image := mkImage {
  mode : Mode;
  width : Z;
  height : Z;
  getpixel : Z -> Z -> pixel
}.

Definition transparent : pixel := mkPixel 0 0 0 0.

(** The pixel a colour tuple denotes in a mode: [(r, g, b)] or
    [(r, g, b, a)]; missing bands read as the mode's default. *)
Definition ink (m : Mode) (color : list Z) : pixel :=
  match m with
  | RGB => mkPixel (nth 0 color 0) (nth 1 color 0) (nth 2 color 0) 255
  | RGBA => mkPixel (nth 0 color 0) (nth 1 color 0) (nth 2 color 0) (nth 3 color 255)
  end.

(** Opacity of a pixel as seen through the raster's mode. *)
Definition alpha (m : Mode) (p : pixel) : Z :=
  match m with RGB => 255 | RGBA => band_a p end.

Definition inside (im : Image) (x y : Z) : bool :=
  (0 <=? x) && (x <? width im) && (0 <=? y) && (y <? height im).

(** [Image.new(mode, (w, h), color)] *)
Definition new (m : Mode) (size : Z * Z) (color : list Z) : Image :=
  {| mode := m; width := fst size; height := snd size;
     getpixel := fun _ _ => ink m color |}.

Definition convert_pixel (from to : Mode) (p : pixel) : pixel :=
  match from, to with
  | RGB, RGBA => mkPixel (band_r p) (band_g p) (band_b p) 255
  | RGBA, RGB => mkPixel (band_r p) (band_g p) (band_b p) 255
  | _, _ => p
  end.

(** [im.convert(mode)] *)
Definition convert (to : Mode) (im : Image) : Image :=
  {| mode := to; width := width im; height := height im;
     getpixel := fun x y => convert_pixel (mode im) to (getpixel im x y) |}.

(** [im.crop((left, top, right, bottom))]: the region is read at an offset;
    what lies outside the raster reads as zero. *)
Definition crop (im : Image) (box : Z * Z * Z * Z) : Image :=
  let '(l, t, r, b) := box in
  {| mode := mode im; width := r - l; height := b - t;
     getpixel := fun x y =>
       if inside im (x + l) (y + t) then getpixel im (x + l) (y + t)
       else transparent |}.

Section Library.
(** Two computations are Pillow's own and stay parameters: the per-band
    blend of a masked paste (mask value, destination band, source band)
    and the pixel data a resampling filter produces for a target size. *)
Variable blend : Z -> Z -> Z -> Z.
Variable resample : Image -> Z * Z -> Z -> Z -> pixel.

Definition blend_pixel (m : Z) (dst src : pixel) : pixel :=
  mkPixel (blend m (band_r dst) (band_r src))
          (blend m (band_g dst) (band_g src))
          (blend m (band_b dst) (band_b src))
          (blend m (band_a dst) (band_a src)).

(** [dst.paste(src, (ox, oy), mask)] with an RGBA mask of the size of
    [src]: inside the pasted box every band is blended by the mask's
    alpha, the source being first converted to the destination's mode;
    the destination keeps its mode and size. *)
Definition paste (dst src : Image) (pos : Z * Z) (mask : Image) : Image :=
  let '(ox, oy) := pos in
  {| mode := mode dst; width := width dst; height := height dst;
     getpixel := fun x y =>
       if inside src (x - ox) (y - oy) then
         blend_pixel (band_a (getpixel mask (x - ox) (y - oy)))
                     (getpixel dst x y)
                     (convert_pixel (mode src) (mode dst)
                        (getpixel src (x - ox) (y - oy)))
       else getpixel dst x y |}.

(** [im.resize((w, h), Image.Resampling.LANCZOS)] *)
Definition resize (im : Image) (size : Z * Z) : Image :=
  {| mode := mode im; width := fst size; height := snd size;
     getpixel := resample im size |}.
End Library.

(** The storage: a path holds the raster its PNG file decodes to. *)
Abbreviation files := (gmap string Image).

(** [Image.open(path)]; [None] when there is no such file. *)
Definition open (fs : files) (path : string) : option Image := fs !! path.

(** [im.save(path, "PNG", optimize=True)] *)
Definition save (im : Image) (path : string) (fs : files) : files :=
  <[path := im]> fs.

(** Sample instances of the two parameters, used to run the model:
    linear interpolation over 255 and nearest-neighbour sampling. *)
Definition lerp255 (m out inp : Z) : Z := (out * (255 - m) + inp * m + 127) / 255.

Definition nearest (im : Image) (size : Z * Z) (x y : Z) : pixel :=
  getpixel im (x * width im / fst size) (y * height im / snd size).

End PIL.

(** ** The script: configuration and crop geometry *)

Module Gen.
Import Py PIL.

Definition BACKGROUND_COLOR : list Z := [10; 10; 10; 255].
Definition OUTPUT_DIR : string := "image".
Definition SOURCE_LOGO : string := "image/gcaLogo.png".
Definition ICON_SIZES : list Z := [72; 96; 128; 144; 152; 192; 384; 512].

(** A PIL box [(left, top, right, bottom)]. *)
Record Box := mkBox { left : Z; top : Z; right : Z; bottom : Z }.

Definition crop_width (b : Box) : Z := right b - left b.
Definition crop_height (b : Box) : Z := bottom b - top b.

Section Geometry.
Context {F : Type} {FO : PyFloat F}.

Definition center_x (orig_width : Z) : Z := orig_width / 2.
Definition center_y (orig_height : Z) : Z := orig_height / 2.

(** [crop_size = min(orig_height, orig_width * 0.4)] *)
Definition crop_size (orig_width orig_height : Z) : num F :=
  min (Int orig_height) (mul (Int orig_width) (Float (float_lit 4 10))).

(** [half_crop = int(crop_size // 2)] *)
Definition half_crop (orig_width orig_height : Z) : Z :=
  int (floordiv (crop_size orig_width orig_height) 2).

(** The box computed before any adjustment. *)
Definition initial_box (orig_width orig_height : Z) : Box :=
  let cx := center_x orig_width in
  let cy := center_y orig_height in
  let hc := half_crop orig_width orig_height in
  {| left := cx - hc;
     top := int (sub (Int cy) (mul (Int hc) (Float (float_lit 9 10))));
     right := cx + hc;
     bottom := int (add (Int cy) (mul (Int hc) (Float (float_lit 11 10)))) |}.
End Geometry.

(** "Make it square": widen the narrower dimension by [diff // 2] on each
    side. *)
Definition make_square (b : Box) : Box :=
  if crop_width b <? crop_height b then
    let diff := crop_height b - crop_width b in
    {| left := left b - diff / 2; top := top b;
       right := right b + diff / 2; bottom := bottom b |}
  else if crop_height b <? crop_width b then
    let diff := crop_width b - crop_height b in
    {| left := left b; top := top b - diff / 2;
       right := right b; bottom := bottom b + diff / 2 |}
  else b.

(** "Ensure bounds are valid". *)
Definition clamp_bounds (orig_width orig_height : Z) (b : Box) : Box :=
  {| left := Z.max 0 (left b);
     top := Z.max 0 (top b);
     right := Z.min orig_width (right b);
     bottom := Z.min orig_height (bottom b) |}.

(** The box handed to [original.crop]. *)
Definition crop_region {F : Type} {FO : PyFloat F} (orig_width orig_height : Z) : Box :=
  clamp_bounds orig_width orig_height (make_square (initial_box orig_width orig_height)).

(** The box about to be clamped reaches outside a [w] x [h] source. *)
Definition exceeds (w h : Z) (b : Box) : Prop :=
  left b < 0 \/ top b < 0 \/ w < right b \/ h < bottom b.

(** [os.path.join(a, b)] on POSIX paths. *)
Definition path_join (a b : string) : string :=
  if String.prefix "/" b then b
  else if String.eqb a EmptyString then b
  else if String.eqb (String.substring (String.length a - 1) 1 a) "/" then a +:+ b
  else a +:+ "/" +:+ b.

(** [os.path.join(OUTPUT_DIR, f"icon-{size}x{size}.png")] *)
Definition output_path (size : Z) : string :=
  path_join OUTPUT_DIR ("icon-" +:+ pretty size +:+ "x" +:+ pretty size +:+ ".png").

Section Pipeline.
Context {F : Type} {FO : PyFloat F}.
Variable blend : Z -> Z -> Z -> Z.
Variable resample : Image -> Z * Z -> Z -> Z -> pixel.

(** "Make it exactly square by adding padding if needed". *)
Definition pad_square (cropped : Image) : Image :=
  let cropped_w := width cropped in
  let cropped_h := height cropped in
  let max_dim := Z.max cropped_w cropped_h in
  let square := new RGBA (max_dim, max_dim) [0; 0; 0; 0] in
  let paste_x := (max_dim - cropped_w) / 2 in
  let paste_y := (max_dim - cropped_h) / 2 in
  paste blend square cropped (paste_x, paste_y) cropped.

(** The square every icon is resampled from. *)
Definition working_square (original : Image) : Image :=
  let b := crop_region (width original) (height original) in
  let cropped := crop original (left b, top b, right b, bottom b) in
  pad_square cropped.

Definition padding_percent : num F := Float (float_lit 10 100).

(** [logo_size = int(size * (1 - padding_percent * 2))] *)
Definition logo_size (size : Z) : Z :=
  int (mul (Int size) (sub (Int 1) (mul padding_percent (Int 2)))).

Definition offset (size : Z) : Z := (size - logo_size size) / 2.

(** One iteration of the loop, up to the raster that is saved. *)
Definition make_icon (square : Image) (size : Z) : Image :=
  let icon := new RGBA (size, size) BACKGROUND_COLOR in
  let resized_logo := resize resample square (logo_size size, logo_size size) in
  let icon := paste blend icon resized_logo (offset size, offset size) resized_logo in
  let icon_rgb := new RGB (size, size) (take 3 BACKGROUND_COLOR) in
  paste blend icon_rgb icon (0, 0) icon.

(** The generator over the storage: [None] when the logo cannot be
    opened, otherwise the storage after the loop has saved every icon. *)
Definition create_pwa_icons (fs : files) : option files :=
  match open fs SOURCE_LOGO with
  | None => None
  | Some img =>
      let original := convert RGBA img in
      let square := working_square original in
      Some (foldl (fun fs size => save (make_icon square size) (output_path size) fs)
                  fs ICON_SIZES)
  end.
End Pipeline.

End Gen.

(** ** What the script prints *)

Module Console.
Import Py PIL Gen.

(** The line feed of the two messages that start with a blank line. *)
Definition nl : string := String (Ascii.ascii_of_nat 10) EmptyString.

(** The two lines of one loop iteration. *)
Definition loop_lines (size : Z) : list string :=
  ["Generating " +:+ pretty size +:+ "x" +:+ pretty size +:+ " icon...";
   "  ✓ Saved: " +:+ output_path size].

(** One line of the closing list. *)
Definition summary_line (size : Z) : string :=
  "  • icon-" +:+ pretty size +:+ "x" +:+ pretty size +:+ ".png".

(** Everything printed from the first iteration on. *)
Definition report_lines : list string :=
  (ICON_SIZES ≫= loop_lines) ++
  [nl +:+ "✅ All PWA icons generated successfully!";
   nl +:+ "Icons created in '" +:+ OUTPUT_DIR +:+ "/' folder:"] ++
  (summary_line <$> ICON_SIZES).

(** The lines the script prints, one per [print] call, in order.  When the
    logo cannot be opened the script stops right after the first. *)
Definition stdout {F : Type} {FO : PyFloat F} (fs : files) : list string :=
  ("Loading logo from " +:+ SOURCE_LOGO +:+ "...") ::
  match open fs SOURCE_LOGO with
  | None => []
  | Some img =>
      let original := convert RGBA img in
      let orig_width := width original in
      let orig_height := height original in
      let b := crop_region orig_width orig_height in
      ("Original size: " +:+ pretty orig_width +:+ "x" +:+ pretty orig_height) ::
      ("Cropping to: (" +:+ pretty (left b) +:+ ", " +:+ pretty (top b) +:+ ", "
         +:+ pretty (right b) +:+ ", " +:+ pretty (bottom b) +:+ ")") ::
      report_lines
  end.

End Console.

(** ** Sample inputs and checks, to run the model *)

Module Samples.
Import Py PIL Gen.

(** An 800x400 opaque gradient and a storage that holds it as the logo. *)
Definition gradient (w h : Z) : Image :=
  {| mode := RGBA; width := w; height := h;
     getpixel := fun x y => mkPixel (x mod 256) (y mod 256) 128 255 |}.

Definition logo_800x400 : Image := gradient 800 400.

Definition storage : files := {[ SOURCE_LOGO := logo_800x400 ]}.

Definition box_eqb (a b : Box) : bool :=
  (left a =? left b) && (top a =? top b) && (right a =? right b) && (bottom a =? bottom b).

(** Do binary64 and exact floats give the same crop region on every source
    size of [ws] x [hs]? *)
Definition floats_agree (ws hs : list Z) : bool :=
  forallb (fun w => forallb (fun h =>
    box_eqb (crop_region (FO := binary64) w h) (crop_region (FO := exactQ) w h)) hs) ws.

Definition upto (n : nat) : list Z := Z.of_nat <$> seq 1 n.

End Samples.

Import Py Rounding PIL Gen Console Samples.

(** * Verification *)

(** ** Arithmetic helpers *)

Ltac zdiv := Z.div_mod_to_equations; Z.quot_rem_to_equations; lia.

Ltac qnorm :=
  cbv [int floordiv mul add sub to_float value trunc Qfloor Qdiv Qinv Qmult
       Qplus Qminus Qopp Qle_bool inject_Z Qnum Qden float_value float_lit
       float_of_int fmul fadd fsub exactQ Z.to_pos Pos.mul Pos.add Pos.succ].

(** ** Binary64 arithmetic

    [SFmul], [SFadd] and [SFsub] on non-negative operands, in terms of
    [round53]: the ground for evaluating the float expressions of the
    script on every size a raster can have. *)

Lemma digits2_pos_size (p : positive) : digits2_pos p = Pos.size p.
Proof. induction p as [p IH | p IH |]; cbn; now rewrite ?IH. Qed.

Lemma digits2_pos_log2 (p : positive) :
  Z.pos (digits2_pos p) = Z.log2 (Z.pos p) + 1.
Proof.
  rewrite digits2_pos_size. destruct p as [p | p |]; cbn; lia.
Qed.

Lemma digits_bounds (p : positive) :
  2 ^ (Z.pos (digits2_pos p) - 1) <= Z.pos p < 2 ^ Z.pos (digits2_pos p).
Proof.
  rewrite digits2_pos_log2.
  replace (Z.log2 (Z.pos p) + 1 - 1) with (Z.log2 (Z.pos p)) by lia.
  replace (Z.log2 (Z.pos p) + 1) with (Z.succ (Z.log2 (Z.pos p))) by lia.
  apply Z.log2_spec. lia.
Qed.

(** [iter_pos] is plain iteration. *)
Lemma iter_pos_nat {A} (f : A -> A) (p : positive) (x : A) :
  SpecFloat.iter_pos f p x = @Nat.iter (Pos.to_nat p) A f x.
Proof.
  revert x. induction p as [p IH | p IH |]; intros x; cbn [SpecFloat.iter_pos].
  - rewrite !IH. rewrite Pos2Nat.inj_xI.
    replace (S (2 * Pos.to_nat p))%nat with (Pos.to_nat p + (Pos.to_nat p + 1))%nat by lia.
    rewrite !Nat.iter_add. reflexivity.
  - rewrite !IH. rewrite Pos2Nat.inj_xO.
    replace (2 * Pos.to_nat p)%nat with (Pos.to_nat p + Pos.to_nat p)%nat by lia.
    rewrite Nat.iter_add. reflexivity.
  - reflexivity.
Qed.

Lemma shifted_0 (M : Z) : shifted M 0 (Build_shr_record M false false).
Proof.
  unfold shifted. cbn [shr_m shr_r shr_s]. rewrite Z.pow_0_r, Z.div_1_r, Z.mod_1_r.
  repeat split.
Qed.

Lemma shifted_step (M k : Z) (mrs : shr_record) :
  0 <= M -> 0 <= k -> shifted M k mrs -> shifted M (k + 1) (shr_1 mrs).
Proof.
  intros HM Hk (Hm & Hr & Hs). destruct mrs as [m r s]. cbn [shr_m shr_r shr_s] in *.
  assert (HP : 0 < 2 ^ k) by (apply Z.pow_pos_nonneg; lia).
  set (H := 2 ^ k) in *.
  assert (Hdm := Z.div_mod M H ltac:(lia)).
  assert (Hrem := Z.mod_pos_bound M H HP).
  assert (Hq : 0 <= M / H) by (apply Z.div_pos; lia).
  assert (Hdm2 := Z.div_mod M (H * 2) ltac:(lia)).
  assert (Hrem2 := Z.mod_pos_bound M (H * 2) ltac:(lia)).
  assert (Hors : orb r s = negb (M mod H =? 0)).
  { rewrite Hr, Hs.
    destruct (Z.leb_spec H (2 * (M mod H))), (Z.eqb_spec (2 * (M mod H)) 0),
      (Z.eqb_spec (2 * (M mod H)) H), (Z.eqb_spec (M mod H) 0); cbn; try reflexivity; lia. }
  assert (Hcase : forall m' (b : bool), m = 2 * m' + (if b then 1 else 0) -> 0 <= m' ->
            shifted M (k + 1) (Build_shr_record m' b (orb r s))).
  { intros m' b Em Hm'. unfold shifted. cbn [shr_m shr_r shr_s].
    rewrite Z.pow_add_r, Z.pow_1_r by lia. fold H.
    assert (E1 : M / (H * 2) = m' /\ M mod (H * 2) = M mod H + (if b then H else 0)).
    { assert (M = (H * 2) * m' + (M mod H + (if b then H else 0))) by (destruct b; nia).
      assert (0 <= M mod H + (if b then H else 0) < H * 2) by (destruct b; lia).
      split.
      - symmetry. apply (Z.div_unique_pos M (H * 2) m' (M mod H + (if b then H else 0))); lia.
      - symmetry. apply (Z.mod_unique_pos M (H * 2) m' (M mod H + (if b then H else 0))); lia. }
    destruct E1 as [-> ->]. rewrite Hors. repeat split.
    - destruct b; [symmetry; apply Z.leb_le | symmetry; apply Z.leb_gt]; lia.
    - destruct b, (Z.eqb_spec (M mod H) 0), (Z.eqb_spec (2 * (M mod H + H)) 0),
        (Z.eqb_spec (2 * (M mod H + H)) (H * 2)), (Z.eqb_spec (2 * (M mod H + 0)) 0),
        (Z.eqb_spec (2 * (M mod H + 0)) (H * 2)); cbn; try reflexivity; lia. }
  unfold shr_1.
  destruct m as [| [p | p |] | p].
  - apply (Hcase 0 false); lia.
  - apply (Hcase (Z.pos p) true); lia.
  - apply (Hcase (Z.pos p) false); lia.
  - apply (Hcase 0 true); lia.
  - lia.
Qed.

Lemma shifted_iter (M : Z) (n : nat) :
  0 <= M ->
  shifted M (Z.of_nat n) (@Nat.iter n shr_record shr_1 (Build_shr_record M false false)).
Proof.
  intros HM. induction n as [| n IH].
  - apply shifted_0.
  - rewrite Nat2Z.inj_succ. unfold Z.succ. cbn [Nat.iter]. apply shifted_step; [lia | lia | exact IH].
Qed.

Lemma shr_shifted (M : Z) (e : Z) (p : positive) :
  0 <= M ->
  exists mrs, shr (Build_shr_record M false false) e (Z.pos p) = (mrs, e + Z.pos p) /\
              shifted M (Z.pos p) mrs.
Proof.
  intros HM. eexists. split; [reflexivity |].
  rewrite iter_pos_nat. rewrite <- (positive_nat_Z p) at 1. now apply shifted_iter.
Qed.

Lemma rne_of_shifted (M k : Z) (mrs : shr_record) :
  0 <= M -> 0 <= k -> shifted M k mrs ->
  round_nearest_even (shr_m mrs) (loc_of_shr_record mrs) = rne M (2 ^ k).
Proof.
  intros HM Hk (Hm & Hr & Hs). destruct mrs as [m r s]. cbn [shr_m shr_r shr_s] in *.
  assert (HP : 0 < 2 ^ k) by (apply Z.pow_pos_nonneg; lia).
  assert (Hrem := Z.mod_pos_bound M (2 ^ k) HP).
  unfold rne. cbv zeta. rewrite <- Hm.
  destruct (Z.ltb_spec (2 * (M mod 2 ^ k)) (2 ^ k)) as [H1 | H1].
  - assert (r = false) by (rewrite Hr; apply Z.leb_gt; lia). clear Hr. subst r.
    destruct s; reflexivity.
  - assert (r = true) by (rewrite Hr; apply Z.leb_le; lia). clear Hr. subst r.
    destruct (Z.ltb_spec (2 ^ k) (2 * (M mod 2 ^ k))) as [H2 | H2].
    + assert (s = true).
      { rewrite Hs. destruct (Z.eqb_spec (2 * (M mod 2 ^ k)) 0), (Z.eqb_spec (2 * (M mod 2 ^ k)) (2 ^ k));
          cbn; try reflexivity; lia. }
      clear Hs. subst s. reflexivity.
    + assert (s = false).
      { rewrite Hs. destruct (Z.eqb_spec (2 * (M mod 2 ^ k)) 0), (Z.eqb_spec (2 * (M mod 2 ^ k)) (2 ^ k));
          cbn; try reflexivity; lia. }
      clear Hs. subst s. reflexivity.
Qed.

Lemma digits_unique (p : positive) (d : Z) :
  2 ^ (d - 1) <= Z.pos p < 2 ^ d -> Z.pos (digits2_pos p) = d.
Proof.
  intros H. rewrite digits2_pos_log2.
  assert (0 < d).
  { destruct (Z.le_gt_cases d 0) as [Hd | Hd]; [| lia].
    assert (2 ^ d <= 2 ^ 0) by (destruct (Z.eq_dec d 0) as [-> | Hn]; [lia |
       rewrite Z.pow_neg_r by lia; cbn; lia]). cbn in *. lia. }
  assert (Z.log2 (Z.pos p) = d - 1); [| lia].
  apply Z.log2_unique; [lia |]. replace (Z.succ (d - 1)) with d by lia. exact H.
Qed.

Lemma rne_bounds (N H : Z) :
  0 <= N -> 0 < H ->
  N / H <= rne N H <= N / H + 1 /\ 2 * Z.abs (rne N H * H - N) <= H.
Proof.
  intros HN HH. unfold rne. cbv zeta.
  assert (Hdm := Z.div_mod N H ltac:(lia)).
  assert (Hrem := Z.mod_pos_bound N H HH).
  destruct (Z.ltb_spec (2 * (N mod H)) H); [split; nia |].
  destruct (Z.ltb_spec H (2 * (N mod H))); [split; nia |].
  destruct (Z.even (N / H)); split; nia.
Qed.

Lemma rne_1 (N : Z) : rne N 1 = N.
Proof.
  unfold rne. cbv zeta. rewrite Z.div_1_r, Z.mod_1_r. reflexivity.
Qed.

(** The core: [binary_round_aux] on a positive mantissa rounds it to 53
    bits, to nearest and ties to even. *)
Lemma binary_round_aux_spec (mx : positive) (ex : Z) :
  -1074 <= ex -> Z.pos (digits2_pos mx) + ex <= 971 ->
  exists m e,
    binary_round_aux 53 1024 false (Z.pos mx) ex loc_Exact = S754_finite false m e /\
    ex <= e /\ e <= ex + Z.max 0 (Z.pos (digits2_pos mx) - 53) + 1 /\
    Z.pos m < 2 ^ 53 /\
    Z.pos m * 2 ^ (e - ex) = round53 (Z.pos mx).
Proof.
  intros Hex Hov. pose proof (digits_bounds mx) as Hd.
  set (d := Z.pos (digits2_pos mx)) in *.
  assert (Hr53 : round53 (Z.pos mx) =
                 rne (Z.pos mx) (2 ^ Z.max 0 (d - 53)) * 2 ^ Z.max 0 (d - 53)).
  { unfold round53. cbv zeta. unfold d. rewrite digits2_pos_log2.
    replace (Z.log2 (Z.pos mx) + 1 - 53) with (Z.log2 (Z.pos mx) - 52) by lia. reflexivity. }
  unfold binary_round_aux, shr_fexp, fexp, emin. cbn [Zdigits2 shr_record_of_loc]. fold d.
  destruct (Z.le_gt_cases d 53) as [Hd53 | Hd53].
  - (* no shift *)
    assert (Hn : Z.max (d + ex - 53) (3 - 1024 - 53) - ex <= 0) by lia.
    assert (Hshr : forall mrs, shr mrs ex (Z.max (d + ex - 53) (3 - 1024 - 53) - ex) = (mrs, ex)).
    { intros mrs. unfold shr. destruct (Z.max (d + ex - 53) (3 - 1024 - 53) - ex); try reflexivity; lia. }
    rewrite Hshr. cbn [shr_m loc_of_shr_record round_nearest_even shr_record_of_loc Zdigits2].
    fold d. rewrite Hshr. cbn [shr_m].
    assert (Hle : (ex <=? 1024 - 53) = true) by (apply Z.leb_le; lia).
    rewrite Hle. exists mx, ex. rewrite Hr53, Z.max_l, Z.pow_0_r, rne_1, Z.sub_diag by lia.
    repeat split; try lia.
    assert (2 ^ d <= 2 ^ 53) by (apply Z.pow_le_mono_r; lia). lia.
  - (* shift by d - 53 *)
    assert (Hn : Z.max (d + ex - 53) (3 - 1024 - 53) - ex = d - 53) by lia.
    rewrite Hn.
    assert (Hp : exists p, d - 53 = Z.pos p).
    { destruct (d - 53) as [| p |] eqn:E; try lia. now exists p. }
    destruct Hp as [p Hp]. rewrite Hp in *.
    destruct (shr_shifted (Z.pos mx) ex p ltac:(lia)) as (mrs & Hs & Hsh).
    rewrite Hs.
    rewrite (rne_of_shifted (Z.pos mx) (Z.pos p) mrs ltac:(lia) ltac:(lia) Hsh).
    rewrite Hr53. replace (Z.max 0 (Z.pos p)) with (Z.pos p) by lia.
    assert (HP : 0 < 2 ^ Z.pos p) by (apply Z.pow_pos_nonneg; lia).
    assert (Hq : 2 ^ 52 <= Z.pos mx / 2 ^ Z.pos p < 2 ^ 53).
    { replace d with (Z.pos p + 53) in Hd by lia.
      rewrite Z.pow_add_r in Hd by lia.
      replace (Z.pos p + 53 - 1) with (Z.pos p + 52) in Hd by lia.
      rewrite Z.pow_add_r in Hd by lia.
      split; [apply Z.div_le_lower_bound; lia | apply Z.div_lt_upper_bound; lia]. }
    destruct (rne_bounds (Z.pos mx) (2 ^ Z.pos p) ltac:(lia) HP) as [Hb _].
    set (m1 := rne (Z.pos mx) (2 ^ Z.pos p)) in *.
    destruct (Z.eq_dec m1 (2 ^ 53)) as [E | NE].
    + (* the rounded mantissa reached 2^53 *)
      rewrite E. change (Zdigits2 (2 ^ 53)) with 54.
      replace (Z.max (54 + (ex + Z.pos p) - 53) (3 - 1024 - 53) - (ex + Z.pos p)) with 1 by lia.
      cbn [shr shr_record_of_loc SpecFloat.iter_pos shr_1 shr_m].
      change (2 ^ 53) with 9007199254740992. cbn [shr_1 shr_m].
      assert (Hle : (ex + Z.pos p + 1 <=? 1024 - 53) = true) by (apply Z.leb_le; lia).
      rewrite Hle. eexists _, _. split; [reflexivity |].
      replace (ex + Z.pos p + 1 - ex) with (Z.pos p + 1) by lia.
      rewrite Z.pow_add_r by lia. repeat split; try lia.
    + assert (Hm1 : 2 ^ 52 <= m1 < 2 ^ 53) by lia.
      destruct m1 as [| pm | pm] eqn:Em; try lia.
      assert (Hdm : Zdigits2 (Z.pos pm) = 53).
      { cbn [Zdigits2]. apply digits_unique. cbn. lia. }
      rewrite Hdm.
      replace (Z.max (53 + (ex + Z.pos p) - 53) (3 - 1024 - 53) - (ex + Z.pos p)) with 0 by lia.
      cbn [shr shr_record_of_loc shr_m].
      assert (Hle : (ex + Z.pos p <=? 1024 - 53) = true) by (apply Z.leb_le; lia).
      rewrite Hle. exists pm, (ex + Z.pos p). split; [reflexivity |].
      replace (ex + Z.pos p - ex) with (Z.pos p) by lia.
      repeat split; try lia.
Qed.

(** *** Properties of [round53] *)

Lemma rne_exact (N H : Z) : 0 < H -> N mod H = 0 -> rne N H = N / H.
Proof.
  intros HH Hr. unfold rne. cbv zeta. rewrite Hr.
  destruct (Z.ltb_spec (2 * 0) H); [reflexivity | lia].
Qed.

Lemma rne_scale (N H T : Z) : 0 < H -> 0 < T -> rne (N * T) (H * T) = rne N H.
Proof.
  intros HH HT. unfold rne. cbv zeta.
  rewrite Z.div_mul_cancel_r, Z.mul_mod_distr_r by lia.
  destruct (Z.ltb_spec (2 * (N mod H * T)) (H * T)), (Z.ltb_spec (2 * (N mod H)) H);
    try reflexivity; try nia.
  destruct (Z.ltb_spec (H * T) (2 * (N mod H * T))), (Z.ltb_spec H (2 * (N mod H)));
    try reflexivity; nia.
Qed.

Lemma round53_0 : round53 0 = 0.
Proof. reflexivity. Qed.

Lemma round53_small (N : Z) : 0 <= N < 2 ^ 53 -> round53 N = N.
Proof.
  intros HN. unfold round53. cbv zeta.
  assert (Z.log2 N <= 52).
  { destruct (Z.eq_dec N 0) as [-> | Hn]; [cbn; lia |].
    assert (Z.log2 N < 53); [| lia]. apply Z.log2_lt_pow2; lia. }
  rewrite Z.max_l by lia. rewrite Z.pow_0_r, rne_1. lia.
Qed.

Lemma round53_scale (N t : Z) : 0 <= N -> 0 <= t -> round53 (N * 2 ^ t) = round53 N * 2 ^ t.
Proof.
  intros HN Ht. destruct (Z.eq_dec N 0) as [-> | Hn]; [reflexivity |].
  assert (HT : 0 < 2 ^ t) by (apply Z.pow_pos_nonneg; lia).
  unfold round53. cbv zeta. rewrite Z.log2_mul_pow2 by lia.
  destruct (Z.le_gt_cases 52 (Z.log2 N)) as [Hl | Hl].
  - rewrite !Z.max_r by lia.
    replace (t + Z.log2 N - 52) with ((Z.log2 N - 52) + t) by lia.
    rewrite Z.pow_add_r by lia.
    rewrite rne_scale by (try apply Z.pow_pos_nonneg; lia). lia.
  - rewrite (Z.max_l 0 (Z.log2 N - 52)) by lia. rewrite Z.pow_0_r, rne_1.
    set (s := Z.max 0 (t + Z.log2 N - 52)).
    assert (Hs : 0 <= s <= t) by (unfold s; lia).
    assert (HS : 0 < 2 ^ s) by (apply Z.pow_pos_nonneg; lia).
    assert (E : N * 2 ^ t = (N * 2 ^ (t - s)) * 2 ^ s).
    { rewrite <- Z.mul_assoc, <- Z.pow_add_r by lia. do 2 f_equal. lia. }
    rewrite rne_exact; [| lia | rewrite E; apply Z.mod_mul; lia].
    rewrite E at 1. rewrite Z.div_mul by lia. lia.
Qed.

Lemma round53_repr (a j : Z) : 0 <= a < 2 ^ 53 -> 0 <= j -> round53 (a * 2 ^ j) = a * 2 ^ j.
Proof. intros Ha Hj. rewrite round53_scale by lia. now rewrite round53_small. Qed.

(** The grid a positive [N] is rounded on. *)
Lemma round53_grid (N : Z) :
  0 < N ->
  exists s q, 0 <= s /\ round53 N = q * 2 ^ s /\
              N / 2 ^ s <= q <= N / 2 ^ s + 1 /\
              (N mod 2 ^ s = 0 -> q = N / 2 ^ s) /\
              2 * Z.abs (q * 2 ^ s - N) <= 2 ^ s /\
              N < 2 ^ (s + 53) /\ (s = 0 \/ 2 ^ (s + 52) <= N) /\
              s = Z.max 0 (Z.log2 N - 52).
Proof.
  intros HN. set (s := Z.max 0 (Z.log2 N - 52)).
  assert (HS : 0 < 2 ^ s) by (apply Z.pow_pos_nonneg; unfold s; lia).
  exists s, (rne N (2 ^ s)). pose proof (Z.log2_spec N HN) as Hl.
  destruct (rne_bounds N (2 ^ s) ltac:(lia) HS) as [Hb He].
  repeat split; try (unfold s; lia); try apply Hb; try exact He.
  - intros Hm. now apply rne_exact.
  - apply Z.lt_le_trans with (1 := proj2 Hl). apply Z.pow_le_mono_r; unfold s; lia.
  - destruct (Z.le_gt_cases (Z.log2 N) 52) as [H | H]; [left; unfold s; lia | right].
    replace (s + 52) with (Z.log2 N) by (unfold s; lia). apply Hl.
Qed.

Lemma pow2_divide (s t A : Z) : 0 <= s <= t -> (A * 2 ^ t) mod 2 ^ s = 0.
Proof.
  intros H. replace t with ((t - s) + s) by lia. rewrite Z.pow_add_r by lia.
  rewrite Z.mul_assoc. apply Z.mod_mul. apply Z.pow_nonzero; lia.
Qed.

Lemma multiple_le_floor (b N H : Z) : 0 < H -> b mod H = 0 -> b <= N -> b <= N / H * H.
Proof.
  intros HH Hb Hle. apply Z.mod_divide in Hb; [| lia]. destruct Hb as [c ->].
  assert (c <= N / H) by (apply Z.div_le_lower_bound; lia). nia.
Qed.

Lemma round53_error (N : Z) : 0 <= N -> Z.abs (round53 N - N) * 2 ^ 53 <= N.
Proof.
  intros HN. destruct (Z.eq_dec N 0) as [-> | Hn]; [rewrite round53_0; lia |].
  destruct (round53_grid N ltac:(lia)) as (s & q & Hs & -> & _ & _ & He & Hlt & Hge & _).
  destruct Hge as [-> | Hge].
  - rewrite Z.pow_0_r in *. lia.
  - rewrite Z.pow_add_r in Hge by lia.
    assert (0 < 2 ^ s) by (apply Z.pow_pos_nonneg; lia).
    change (2 ^ 53) with (2 * 2 ^ 52). nia.
Qed.

Lemma round53_ge (N A t : Z) :
  0 < N -> 0 <= t -> N < 2 ^ (t + 53) -> A * 2 ^ t <= N -> A * 2 ^ t <= round53 N.
Proof.
  intros HN Ht Hlt Hle.
  destruct (round53_grid N HN) as (s & q & Hs & -> & Hq & _ & _ & _ & _ & Es).
  assert (Hst : s <= t).
  { assert (Z.log2 N < t + 53) by (apply Z.log2_lt_pow2; lia). lia. }
  assert (HS : 0 < 2 ^ s) by (apply Z.pow_pos_nonneg; lia).
  pose proof (multiple_le_floor (A * 2 ^ t) N (2 ^ s) HS (pow2_divide s t A ltac:(lia)) Hle).
  nia.
Qed.

Lemma round53_le (N A t : Z) :
  0 < N -> 0 <= t -> N < 2 ^ (t + 53) -> N <= A * 2 ^ t -> round53 N <= A * 2 ^ t.
Proof.
  intros HN Ht Hlt Hle.
  destruct (round53_grid N HN) as (s & q & Hs & -> & Hq & Hex & _ & _ & _ & Es).
  assert (Hst : s <= t).
  { assert (Z.log2 N < t + 53) by (apply Z.log2_lt_pow2; lia). lia. }
  assert (HS : 0 < 2 ^ s) by (apply Z.pow_pos_nonneg; lia).
  pose proof (pow2_divide s t A ltac:(lia)) as Hdiv.
  apply Z.mod_divide in Hdiv; [| lia]. destruct Hdiv as [c Hc]. rewrite Hc in *.
  assert (Hdm := Z.div_mod N (2 ^ s) ltac:(lia)).
  assert (Hrem := Z.mod_pos_bound N (2 ^ s) HS).
  destruct (Z.eq_dec (N mod 2 ^ s) 0) as [E0 | NE0].
  - rewrite (Hex E0). nia.
  - assert (N / 2 ^ s < c) by nia. nia.
Qed.

Lemma round53_near (N A t : Z) :
  0 < N -> 0 <= t -> N < 2 ^ (t + 53) ->
  2 ^ 54 * Z.abs (N - A * 2 ^ t) <= N -> round53 N = A * 2 ^ t.
Proof.
  intros HN Ht Hlt Hnear.
  destruct (round53_grid N HN) as (s & q & Hs & -> & Hq & Hex & He & Hlt' & Hge & Es).
  assert (Hst : s <= t).
  { assert (Z.log2 N < t + 53) by (apply Z.log2_lt_pow2; lia). lia. }
  assert (HS : 0 < 2 ^ s) by (apply Z.pow_pos_nonneg; lia).
  pose proof (pow2_divide s t A ltac:(lia)) as Hdiv.
  apply Z.mod_divide in Hdiv; [| lia]. destruct Hdiv as [c Hc]. rewrite Hc in *.
  rewrite Z.pow_add_r in Hlt' by lia.
  change (2 ^ 54) with (2 * 2 ^ 53) in Hnear.
  assert (q = c); [| subst; reflexivity].
  assert (2 * Z.abs (N - c * 2 ^ s) < 2 ^ s) by nia.
  nia.
Qed.

(** *** Floats as scaled integers *)

Lemma Rep_nonneg (k : Z) (x : spec_float) (n : Z) : Rep k x n -> 0 <= n.
Proof.
  destruct x as [s | s | | [] m e]; cbn; try contradiction; [lia |].
  intros (He & _ & ->). assert (0 < 2 ^ (e + k)) by (apply Z.pow_pos_nonneg; lia). nia.
Qed.

Lemma Rep_weaken (k j : Z) (x : spec_float) (n : Z) :
  0 <= j -> Rep k x n -> Rep (k + j) x (n * 2 ^ j).
Proof.
  intros Hj. destruct x as [s | s | | [] m e]; cbn; try contradiction; [lia |].
  intros (He & Hm & ->). repeat split; try lia.
  replace (e + (k + j)) with ((e + k) + j) by lia. rewrite (Z.pow_add_r 2 (e + k) j) by lia. ring.
Qed.

Lemma Rep_round53 (k : Z) (x : spec_float) (n : Z) : Rep k x n -> round53 n = n.
Proof.
  destruct x as [s | s | | [] m e]; cbn; try contradiction; [intros ->; reflexivity |].
  intros (He & Hm & ->). apply round53_repr; lia.
Qed.

Lemma Pos_iter_xO (m d : positive) : Z.pos (Pos.iter xO m d) = Z.pos m * 2 ^ Z.pos d.
Proof.
  induction d as [| d IH] using Pos.peano_ind.
  - cbn. lia.
  - rewrite Pos.iter_succ, Pos2Z.inj_xO, IH, Pos2Z.inj_succ, Z.pow_succ_r by lia. lia.
Qed.

Lemma shl_align_spec (mx : positive) (ex ex' : Z) :
  exists mz ez, shl_align mx ex ex' = (mz, ez) /\ ez = Z.min ex ex' /\
                Z.pos mz = Z.pos mx * 2 ^ (ex - ez).
Proof.
  unfold shl_align. destruct (ex' - ex) as [| d | d] eqn:E.
  - exists mx, ex. repeat split; try lia. replace (ex - ex) with 0 by lia. lia.
  - exists mx, ex. repeat split; try lia. replace (ex - ex) with 0 by lia. lia.
  - eexists _, _. split; [reflexivity |]. split; [lia |].
    rewrite Pos_iter_xO. f_equal. f_equal. lia.
Qed.

Lemma digits_shift (mx mz : positive) (j : Z) :
  0 <= j -> Z.pos mz = Z.pos mx * 2 ^ j ->
  Z.pos (digits2_pos mz) = Z.pos (digits2_pos mx) + j.
Proof.
  intros Hj E. apply digits_unique. rewrite E. pose proof (digits_bounds mx) as Hd.
  replace (Z.pos (digits2_pos mx) + j - 1) with ((Z.pos (digits2_pos mx) - 1) + j) by lia.
  rewrite !Z.pow_add_r by lia.
  assert (0 < 2 ^ j) by (apply Z.pow_pos_nonneg; lia). nia.
Qed.

(** Normalising and rounding a positive integer mantissa. *)
Lemma binary_round_spec (k : Z) (mx : positive) (ex : Z) :
  - k <= ex -> -1074 <= ex -> Z.pos (digits2_pos mx) + ex <= 971 ->
  Rep (k + 52) (binary_round 53 1024 false mx ex)
      (round53 (Z.pos mx * 2 ^ (ex + k)) * 2 ^ 52).
Proof.
  intros Hk Hex Hov. unfold binary_round.
  set (d := Z.pos (digits2_pos mx)) in *.
  destruct (shl_align_spec mx ex (fexp 53 1024 (d + ex))) as (mz & ez & -> & Hez & Hmz).
  unfold fexp, emin in Hez.
  assert (Hj : 0 <= ex - ez) by lia.
  pose proof (digits_shift mx mz (ex - ez) Hj Hmz) as Hdz. fold d in Hdz.
  destruct (binary_round_aux_spec mz ez ltac:(lia) ltac:(lia)) as (m & e & -> & He1 & He2 & Hm & Hv).
  cbn [Rep]. repeat split; try lia.
  rewrite round53_scale by lia.
  assert (E1 : 2 ^ (e + (k + 52)) = 2 ^ (e - ez) * 2 ^ (ez + k + 52)).
  { rewrite <- Z.pow_add_r by lia. f_equal. lia. }
  assert (E2 : 2 ^ (ex + k) * 2 ^ 52 = 2 ^ (ex - ez) * 2 ^ (ez + k + 52)).
  { rewrite <- !Z.pow_add_r by lia. f_equal. lia. }
  rewrite E1, <- Z.mul_assoc, E2.
  replace (Z.pos m * (2 ^ (e - ez) * 2 ^ (ez + k + 52)))
    with (Z.pos m * 2 ^ (e - ez) * 2 ^ (ez + k + 52)) by ring.
  rewrite Hv, Hmz, round53_scale by lia. ring.
Qed.

Lemma binary_normalize_spec (k S ez : Z) :
  0 <= S -> - k <= ez -> -1074 <= ez -> S * 2 ^ (ez + k) < 2 ^ 900 -> 0 <= k ->
  Rep (k + 52) (binary_normalize 53 1024 S ez false) (round53 (S * 2 ^ (ez + k)) * 2 ^ 52).
Proof.
  intros HS Hk Hez Hb Hk0. destruct S as [| p | p]; [reflexivity | | lia].
  cbn [binary_normalize]. apply binary_round_spec; try lia.
  pose proof (digits_bounds p) as Hd.
  assert (0 < 2 ^ (ez + k)) by (apply Z.pow_pos_nonneg; lia).
  assert (Hlt : 2 ^ (Z.pos (digits2_pos p) - 1) * 2 ^ (ez + k) < 2 ^ 900) by nia.
  rewrite <- Z.pow_add_r in Hlt by lia.
  apply Z.pow_lt_mono_r_iff in Hlt; lia.
Qed.

Lemma Rep_of_Z (z : Z) :
  0 <= z < 2 ^ 53 -> Rep 52 (binary_normalize 53 1024 z 0 false) (z * 2 ^ 52).
Proof.
  intros Hz.
  pose proof (binary_normalize_spec 0 z 0 ltac:(lia) ltac:(lia) ltac:(lia)) as H.
  rewrite Z.pow_0_r, Z.mul_1_r, round53_small in H by lia.
  apply H; [| lia]. change (2 ^ 53) with 9007199254740992 in Hz.
  assert (2 ^ 53 < 2 ^ 900) by (apply Z.pow_lt_mono_r; lia).
  change (2 ^ 53) with 9007199254740992 in *. lia.
Qed.

Lemma Rep_mul (k1 k2 : Z) (x y : spec_float) (n1 n2 : Z) :
  0 <= k1 -> 0 <= k2 -> k1 + k2 <= 1074 ->
  Rep k1 x n1 -> Rep k2 y n2 -> n1 * n2 < 2 ^ 900 ->
  Rep (k1 + k2) (SFmul 53 1024 x y) (round53 (n1 * n2)).
Proof.
  intros Hk1 Hk2 Hk Hx Hy Hb.
  destruct x as [sx | sx | | [] mx ex]; cbn in Hx; try contradiction;
    destruct y as [sy | sy | | [] my ey]; cbn in Hy; try contradiction.
  - subst. reflexivity.
  - subst. reflexivity.
  - subst. cbn. now rewrite Z.mul_0_r.
  - destruct Hx as (Hex & Hmx & ->), Hy as (Hey & Hmy & ->).
    cbn [SFmul xorb].
    assert (P1 : 0 < 2 ^ (ex + k1)) by (apply Z.pow_pos_nonneg; lia).
    assert (P2 : 0 < 2 ^ (ey + k2)) by (apply Z.pow_pos_nonneg; lia).
    assert (E : Z.pos mx * 2 ^ (ex + k1) * (Z.pos my * 2 ^ (ey + k2)) =
                Z.pos (mx * my) * 2 ^ ((ex + ey) + (k1 + k2))).
    { replace (ex + ey + (k1 + k2)) with ((ex + k1) + (ey + k2)) by lia.
      rewrite (Z.pow_add_r 2 (ex + k1) (ey + k2)) by lia. rewrite Pos2Z.inj_mul. ring. }
    rewrite E in *.
    pose proof (digits_bounds (mx * my)) as Hd.
    assert (Hov : Z.pos (digits2_pos (mx * my)) + (ex + ey) <= 971).
    { assert (P3 : 0 < 2 ^ (ex + ey + (k1 + k2))) by (apply Z.pow_pos_nonneg; lia).
      assert (Hlt : 2 ^ (Z.pos (digits2_pos (mx * my)) - 1) * 2 ^ (ex + ey + (k1 + k2)) < 2 ^ 900) by nia.
      rewrite <- Z.pow_add_r in Hlt by lia.
      apply Z.pow_lt_mono_r_iff in Hlt; lia. }
    destruct (binary_round_aux_spec (mx * my) (ex + ey) ltac:(lia) Hov)
      as (m & e & -> & He1 & He2 & Hm & Hv).
    cbn [Rep]. repeat split; try lia.
    rewrite round53_scale by lia. rewrite <- Hv.
    assert (E1 : 2 ^ (e + (k1 + k2)) = 2 ^ (e - (ex + ey)) * 2 ^ (ex + ey + (k1 + k2))).
    { rewrite <- Z.pow_add_r by lia. f_equal. lia. }
    rewrite E1. ring.
Qed.

Lemma shl_align_min (k : Z) (mx : positive) (ex ez : Z) :
  ez <= ex -> - k <= ez ->
  Z.pos (fst (shl_align mx ex ez)) * 2 ^ (ez + k) = Z.pos mx * 2 ^ (ex + k).
Proof.
  intros Hle Hk. destruct (shl_align_spec mx ex ez) as (mz & e & -> & He & Hmz).
  cbn [fst]. rewrite Hmz. replace e with ez in * by lia.
  rewrite <- Z.mul_assoc, <- Z.pow_add_r by lia. do 2 f_equal. lia.
Qed.

Lemma Rep_add (k : Z) (x y : spec_float) (n1 n2 : Z) :
  0 <= k <= 1074 -> Rep k x n1 -> Rep k y n2 -> n1 + n2 < 2 ^ 900 ->
  Rep (k + 52) (SFadd 53 1024 x y) (round53 (n1 + n2) * 2 ^ 52).
Proof.
  intros Hk Hx Hy Hb.
  destruct x as [sx | sx | | [] mx ex] eqn:Ex; cbn [Rep] in Hx; try contradiction;
    destruct y as [sy | sy | | [] my ey] eqn:Ey; cbn [Rep] in Hy; try contradiction.
  - subst n1 n2. rewrite Z.add_0_l, round53_0, Z.mul_0_l.
    destruct sx, sy; reflexivity.
  - subst n1. rewrite Z.add_0_l. cbn [SFadd].
    rewrite (Rep_round53 k (S754_finite false my ey) n2 Hy).
    apply Rep_weaken; [lia | exact Hy].
  - subst n2. rewrite Z.add_0_r. cbn [SFadd].
    rewrite (Rep_round53 k (S754_finite false mx ex) n1 Hx).
    apply Rep_weaken; [lia | exact Hx].
  - destruct Hx as (Hex & Hmx & ->), Hy as (Hey & Hmy & ->).
    cbn [SFadd cond_Zopp].
    set (ez := Z.min ex ey).
    pose proof (shl_align_min k mx ex ez ltac:(unfold ez; lia) ltac:(unfold ez; lia)) as E1.
    pose proof (shl_align_min k my ey ez ltac:(unfold ez; lia) ltac:(unfold ez; lia)) as E2.
    rewrite <- E1, <- E2 in *. rewrite <- Z.mul_add_distr_r in *.
    apply binary_normalize_spec; try (unfold ez; lia); exact Hb.
Qed.

Lemma Rep_sub (k : Z) (x y : spec_float) (n1 n2 : Z) :
  0 <= k <= 1074 -> Rep k x n1 -> Rep k y n2 -> n2 <= n1 -> n1 < 2 ^ 900 ->
  Rep (k + 52) (SFsub 53 1024 x y) (round53 (n1 - n2) * 2 ^ 52).
Proof.
  intros Hk Hx Hy Hle Hb.
  destruct x as [sx | sx | | [] mx ex] eqn:Ex; cbn [Rep] in Hx; try contradiction;
    destruct y as [sy | sy | | [] my ey] eqn:Ey; cbn [Rep] in Hy; try contradiction.
  - subst n1 n2. rewrite Z.sub_0_r, round53_0, Z.mul_0_l.
    destruct sx, sy; reflexivity.
  - subst n1. destruct Hy as (Hey & Hmy & ->).
    assert (0 < 2 ^ (ey + k)) by (apply Z.pow_pos_nonneg; lia). nia.
  - subst n2. rewrite Z.sub_0_r. cbn [SFsub].
    rewrite (Rep_round53 k (S754_finite false mx ex) n1 Hx).
    apply Rep_weaken; [lia | exact Hx].
  - destruct Hx as (Hex & Hmx & ->), Hy as (Hey & Hmy & ->).
    cbn [SFsub cond_Zopp].
    set (ez := Z.min ex ey).
    pose proof (shl_align_min k mx ex ez ltac:(unfold ez; lia) ltac:(unfold ez; lia)) as E1.
    pose proof (shl_align_min k my ey ez ltac:(unfold ez; lia) ltac:(unfold ez; lia)) as E2.
    rewrite <- E1, <- E2 in *. rewrite <- Z.mul_sub_distr_r in *.
    assert (0 < 2 ^ (ez + k)) by (apply Z.pow_pos_nonneg; unfold ez; lia).
    apply binary_normalize_spec; try (unfold ez; lia); nia.
Qed.

(** *** Values of rounded results *)

Lemma div_cross (a b c d : Z) : 0 < b -> 0 < d -> a * d = c * b -> a / b = c / d.
Proof.
  intros Hb Hd E.
  rewrite <- (Z.div_mul_cancel_r a b d) by lia. rewrite E.
  rewrite (Z.mul_comm b d). apply Z.div_mul_cancel_r; lia.
Qed.

(** A float that stands for [n / 2^k] has a value [num / den] with
    [num * 2^k = n * den]. *)
Lemma Rep_value (k : Z) (x : spec_float) (n : Z) :
  0 <= k -> Rep k x n ->
  exists num den, b64_value x = Qmake num den /\ 0 <= num /\ num * 2 ^ k = n * Z.pos den.
Proof.
  intros Hk. destruct x as [s | s | | [] m e]; cbn [Rep]; try contradiction.
  - intros ->. exists 0, 1%positive. repeat split; lia.
  - intros (He & Hm & ->). unfold b64_value.
    destruct (Z.leb_spec 0 e) as [H0 | H0].
    + exists (Z.pos m * 2 ^ e), 1%positive.
      assert (0 < 2 ^ e) by (apply Z.pow_pos_nonneg; lia).
      repeat split; try nia. rewrite Z.pow_add_r by lia. ring.
    + assert (Hp : 0 < 2 ^ (- e)) by (apply Z.pow_pos_nonneg; lia).
      exists (Z.pos m), (Z.to_pos (2 ^ (- e))). repeat split; try lia.
      rewrite Z2Pos.id by lia. rewrite <- Z.mul_assoc, <- Z.pow_add_r by lia.
      do 2 f_equal. lia.
Qed.

Lemma Rep_trunc (k : Z) (x : spec_float) (n : Z) :
  0 <= k -> Rep k x n -> trunc (b64_value x) = n / 2 ^ k.
Proof.
  intros Hk Hx. destruct (Rep_value k x n Hk Hx) as (num & den & -> & Hn & E).
  unfold trunc. cbn [Qnum Qden]. rewrite Z.quot_div_nonneg by lia.
  apply div_cross; [lia | apply Z.pow_pos_nonneg; lia | exact E].
Qed.

Lemma Rep_floor_half (k : Z) (x : spec_float) (n : Z) :
  0 <= k -> Rep k x n -> Qfloor (b64_value x / inject_Z 2) = n / 2 ^ (k + 1).
Proof.
  intros Hk Hx. destruct (Rep_value k x n Hk Hx) as (num & den & -> & Hn & E).
  unfold Qfloor, Qdiv, Qinv, Qmult, inject_Z. cbn [Qnum Qden].
  rewrite Z.pow_add_r, Z.pow_1_r by lia.
  assert (0 < 2 ^ k) by (apply Z.pow_pos_nonneg; lia).
  apply div_cross; [lia | lia |]. rewrite Pos2Z.inj_mul. nia.
Qed.

Lemma Rep_le_int (k : Z) (x : spec_float) (n h : Z) :
  0 <= k -> Rep k x n -> Qle_bool (inject_Z h) (b64_value x) = (h * 2 ^ k <=? n).
Proof.
  intros Hk Hx. destruct (Rep_value k x n Hk Hx) as (num & den & -> & Hn & E).
  unfold Qle_bool, inject_Z. cbn [Qnum Qden].
  assert (0 < 2 ^ k) by (apply Z.pow_pos_nonneg; lia).
  destruct (Z.leb_spec (h * Z.pos den) (num * 1)), (Z.leb_spec (h * 2 ^ k) n);
    try reflexivity; nia.
Qed.

(** The float literals of the script, as binary64 values. *)
Lemma lit_04 : @float_lit _ binary64 4 10 = S754_finite false 7205759403792794 (-54).
Proof. vm_compute. reflexivity. Qed.

Lemma lit_09 : @float_lit _ binary64 9 10 = S754_finite false 8106479329266893 (-53).
Proof. vm_compute. reflexivity. Qed.

Lemma lit_11 : @float_lit _ binary64 11 10 = S754_finite false 4953959590107546 (-52).
Proof. vm_compute. reflexivity. Qed.

Lemma Rep_int (z : Z) : 0 <= z < 2 ^ 53 -> Rep 52 (b64_of_Z z) (z * 2 ^ 52).
Proof. apply Rep_of_Z. Qed.

Lemma int_of_b64_of_Z (z : Z) : 0 <= z < 2 ^ 53 -> trunc (b64_value (b64_of_Z z)) = z.
Proof.
  intros Hz. rewrite (Rep_trunc 52 _ (z * 2 ^ 52)); [| lia | now apply Rep_int].
  apply Z.div_mul. lia.
Qed.

(** [n * c] for an int [n] below 2^31 and a positive literal [c = m * 2^-k]. *)
Lemma Rep_mul_lit (n : Z) (m : positive) (k : Z) :
  0 <= n < 2 ^ 31 -> 0 < k <= 60 -> Z.pos m < 2 ^ 53 ->
  Rep (52 + k) (SFmul 53 1024 (b64_of_Z n) (S754_finite false m (- k)))
      (round53 (n * Z.pos m) * 2 ^ 52).
Proof.
  intros Hn Hk Hm.
  assert (Hc : Rep k (S754_finite false m (- k)) (Z.pos m)).
  { cbn [Rep]. repeat split; try lia. replace (- k + k) with 0 by lia. lia. }
  assert (Hx : Rep 52 (b64_of_Z n) (n * 2 ^ 52)).
  { apply Rep_int. change (2 ^ 31) with 2147483648 in Hn.
    change (2 ^ 53) with 9007199254740992. lia. }
  pose proof (Rep_mul 52 k _ _ _ _ ltac:(lia) ltac:(lia) ltac:(lia) Hx Hc) as H.
  replace (n * 2 ^ 52 * Z.pos m) with (n * Z.pos m * 2 ^ 52) in H by ring.
  rewrite round53_scale in H by lia. apply H.
  change (2 ^ 31) with 2147483648 in Hn. change (2 ^ 53) with 9007199254740992 in Hm.
  assert (n * Z.pos m * 2 ^ 52 < 2 ^ 31 * 2 ^ 53 * 2 ^ 52).
  { change (2 ^ 31) with 2147483648. change (2 ^ 53) with 9007199254740992.
    change (2 ^ 52) with 4503599627370496. nia. }
  assert (2 ^ 31 * 2 ^ 53 * 2 ^ 52 < 2 ^ 900).
  { rewrite <- !Z.pow_add_r by lia. apply Z.pow_lt_mono_r; lia. }
  lia.
Qed.

(** ** The crop geometry in binary64

    Pillow keeps the width and the height of a raster in C ints, and a PNG
    header has 31 bits for each: every source the script can open is
    smaller than 2^31 in both directions. *)

Lemma half_crop_unfold (w h : Z) :
  half_crop (FO := binary64) w h =
    let x := SFmul 53 1024 (b64_of_Z w) (@float_lit _ binary64 4 10) in
    if negb (Qle_bool (inject_Z h) (b64_value x))
    then trunc (b64_value (b64_of_Z (Qfloor (b64_value x / inject_Z 2))))
    else h / 2.
Proof.
  unfold half_crop, crop_size, min, ltb. cbv zeta.
  change (value (Int h)) with (inject_Z h).
  change (value (mul (Int w) (Float (@float_lit _ binary64 4 10))))
    with (b64_value (SFmul 53 1024 (b64_of_Z w) (@float_lit _ binary64 4 10))).
  destruct (negb _); reflexivity.
Qed.

(** [orig_width * 0.4] in binary64, in units of 2^-54. *)
Lemma round53_04 (w : Z) :
  1 <= w < 2 ^ 31 ->
  let R := round53 (w * 7205759403792794) in
  (w mod 5 = 0 -> R = w / 5 * 2 ^ 55) /\
  Z.abs (5 * R - w * 2 ^ 55) * 2 ^ 20 <= 2 ^ 55.
Proof.
  intros Hw R. change (2 ^ 31) with 2147483648 in Hw.
  assert (HN : 0 < w * 7205759403792794) by lia.
  pose proof (round53_error (w * 7205759403792794) ltac:(lia)) as He. fold R in He.
  change (2 ^ 53) with 9007199254740992 in He.
  assert (Hex : w mod 5 = 0 -> R = w / 5 * 2 ^ 55).
  { intros Hm. unfold R. apply round53_near; try lia.
    change (2 ^ 54) with 18014398509481984. change (2 ^ 55) with 36028797018963968.
    zdiv. }
  split; [exact Hex |].
  change (2 ^ 55) with 36028797018963968. change (2 ^ 20) with 1048576. lia.
Qed.

Lemma half_crop_binary64 (w h : Z) :
  1 <= w < 2 ^ 31 -> 0 <= h < 2 ^ 31 ->
  half_crop (FO := binary64) w h = Z.min (h / 2) (w / 5).
Proof.
  intros Hw Hh. rewrite half_crop_unfold, lit_04. cbv zeta.
  pose proof (Rep_mul_lit w 7205759403792794 54 ltac:(lia) ltac:(lia) ltac:(cbn; lia)) as Hx.
  change (- (54)) with (-54) in Hx. change (52 + 54) with 106 in Hx.
  set (x := SFmul 53 1024 (b64_of_Z w) (S754_finite false 7205759403792794 (-54))) in *.
  destruct (round53_04 w Hw) as [Hex Herr]. cbv zeta in Hex, Herr.
  set (R := round53 (w * 7205759403792794)) in *.
  rewrite (Rep_le_int 106 x _ h ltac:(lia) Hx).
  rewrite (Rep_floor_half 106 x _ ltac:(lia) Hx).
  change (2 ^ 31) with 2147483648 in *. change (2 ^ 55) with 36028797018963968 in *.
  change (2 ^ 20) with 1048576 in *.
  change (2 ^ (106 + 1)) with (2 ^ 55 * 2 ^ 52). change (2 ^ 106) with (2 ^ 54 * 2 ^ 52).
  rewrite Z.div_mul_cancel_r by lia. rewrite Z.mul_assoc.
  change (2 ^ 55) with 36028797018963968. change (2 ^ 54) with 18014398509481984.
  change (2 ^ 52) with 4503599627370496.
  assert (HR : R / 36028797018963968 = w / 5).
  { destruct (Z.eq_dec (w mod 5) 0) as [E | NE].
    - rewrite (Hex E). apply Z.div_mul. lia.
    - zdiv. }
  rewrite HR, int_of_b64_of_Z by (change (2 ^ 53) with 9007199254740992; zdiv).
  destruct (Z.leb_spec (h * 18014398509481984 * 4503599627370496) (R * 4503599627370496)) as [H1 | H1];
    cbn [negb].
  - destruct (Z.eq_dec (w mod 5) 0) as [E | NE]; [rewrite (Hex E) in H1 |]; zdiv.
  - destruct (Z.eq_dec (w mod 5) 0) as [E | NE]; [rewrite (Hex E) in H1 |]; zdiv.
Qed.

(** [center_y - half_crop * 0.9] in binary64. *)
Lemma top_binary64 (cy hc : Z) :
  0 <= hc <= cy -> cy < 2 ^ 31 ->
  trunc (b64_value (SFsub 53 1024 (b64_of_Z cy)
                      (SFmul 53 1024 (b64_of_Z hc) (@float_lit _ binary64 9 10))))
  = cy - hc + hc / 10.
Proof.
  intros Hhc Hcy. rewrite lit_09.
  change (2 ^ 31) with 2147483648 in *.
  pose proof (Rep_mul_lit hc 8106479329266893 53 ltac:(change (2 ^ 31) with 2147483648; lia)
                ltac:(lia) ltac:(cbn; lia)) as Hx.
  change (- (53)) with (-53) in Hx. change (52 + 53) with 105 in Hx.
  set (x := SFmul 53 1024 (b64_of_Z hc) (S754_finite false 8106479329266893 (-53))) in *.
  set (N := hc * 8106479329266893) in *.
  set (R := round53 N) in *.
  assert (HN : 0 <= N) by (unfold N; lia).
  pose proof (round53_error N HN) as He. fold R in He.
  change (2 ^ 53) with 9007199254740992 in He.
  assert (Hex : hc mod 10 = 0 -> R = hc / 10 * 9 * 2 ^ 53).
  { intros Hm. destruct (Z.eq_dec hc 0) as [-> | Hnz]; [reflexivity |].
    unfold R. apply (round53_near N (hc / 10 * 9) 53); unfold N; try lia.
    change (2 ^ 54) with 18014398509481984. change (2 ^ 53) with 9007199254740992.
    zdiv. }
  assert (HR : R <= cy * 2 ^ 53).
  { destruct (Z.eq_dec hc 0) as [E0 | Hnz].
    - unfold R, N. rewrite E0, Z.mul_0_l, round53_0. lia.
    - unfold R. apply round53_le; unfold N; lia. }
  pose proof (Rep_weaken 52 53 _ _ ltac:(lia)
                (Rep_int cy ltac:(change (2 ^ 53) with 9007199254740992; lia))) as Hc.
  change (52 + 53) with 105 in Hc.
  assert (Hle : R * 2 ^ 52 <= cy * 2 ^ 52 * 2 ^ 53).
  { change (2 ^ 52) with 4503599627370496. change (2 ^ 53) with 9007199254740992 in *. lia. }
  pose proof (Rep_sub 105 _ _ _ _ ltac:(lia) Hc Hx Hle) as Hs.
  replace (cy * 2 ^ 52 * 2 ^ 53 - R * 2 ^ 52) with ((cy * 2 ^ 53 - R) * 2 ^ 52) in Hs by ring.
  rewrite round53_scale in Hs by (change (2 ^ 53) with 9007199254740992 in *; lia).
  rewrite (Rep_trunc (105 + 52) _ _ ltac:(lia) (Hs ltac:(
     change (2 ^ 52) with 4503599627370496; change (2 ^ 53) with 9007199254740992;
     apply Z.lt_le_trans with (2 ^ 140); [change (2 ^ 140) with
       1393796574908163946345982392040522594123776; lia | apply Z.pow_le_mono_r; lia]))).
  set (D := cy * 2 ^ 53 - R) in *.
  assert (HD : 0 <= D) by (unfold D; lia).
  pose proof (round53_error D HD) as HeD.
  replace (round53 D * 2 ^ 52 * 2 ^ 52 / 2 ^ (105 + 52)) with (round53 D / 2 ^ 53).
  2:{ change (2 ^ (105 + 52)) with (2 ^ 53 * (2 ^ 52 * 2 ^ 52)).
      rewrite <- Z.mul_assoc. rewrite Z.div_mul_cancel_r; [reflexivity | lia | lia]. }
  destruct (Z.eq_dec (hc mod 10) 0) as [E | NE].
  - assert (ED : D = (cy - hc / 10 * 9) * 2 ^ 53) by (unfold D; rewrite (Hex E); ring).
    rewrite ED. rewrite round53_repr by (change (2 ^ 53) with 9007199254740992; zdiv).
    rewrite Z.div_mul by lia. zdiv.
  - unfold D, N in *. change (2 ^ 53) with 9007199254740992 in *. zdiv.
Qed.

(** [center_y + half_crop * 1.1] in binary64. *)
Lemma bottom_binary64 (cy hc : Z) :
  0 <= hc < 2 ^ 31 -> 0 <= cy < 2 ^ 31 ->
  trunc (b64_value (SFadd 53 1024 (b64_of_Z cy)
                      (SFmul 53 1024 (b64_of_Z hc) (@float_lit _ binary64 11 10))))
  = cy + hc + hc / 10.
Proof.
  intros Hhc Hcy. rewrite lit_11.
  pose proof (Rep_mul_lit hc 4953959590107546 52 ltac:(lia) ltac:(lia) ltac:(cbn; lia)) as Hx.
  change (- (52)) with (-52) in Hx. change (52 + 52) with 104 in Hx.
  change (2 ^ 31) with 2147483648 in *.
  set (x := SFmul 53 1024 (b64_of_Z hc) (S754_finite false 4953959590107546 (-52))) in *.
  set (N := hc * 4953959590107546) in *.
  set (R := round53 N) in *.
  assert (HN : 0 <= N) by (unfold N; lia).
  pose proof (round53_error N HN) as He. fold R in He.
  change (2 ^ 53) with 9007199254740992 in He.
  pose proof (Rep_weaken 52 52 _ _ ltac:(lia)
                (Rep_int cy ltac:(change (2 ^ 53) with 9007199254740992; lia))) as Hc.
  change (52 + 52) with 104 in Hc.
  pose proof (Rep_add 104 _ _ _ _ ltac:(lia) Hc Hx) as Hs.
  replace (cy * 2 ^ 52 * 2 ^ 52 + R * 2 ^ 52) with ((cy * 2 ^ 52 + R) * 2 ^ 52) in Hs by ring.
  assert (HR0 : 0 <= R) by lia.
  rewrite round53_scale in Hs by (change (2 ^ 52) with 4503599627370496; lia).
  rewrite (Rep_trunc (104 + 52) _ _ ltac:(lia) (Hs ltac:(
     change (2 ^ 52) with 4503599627370496;
     apply Z.lt_le_trans with (2 ^ 140); [change (2 ^ 140) with
       1393796574908163946345982392040522594123776; unfold N in *; lia
       | apply Z.pow_le_mono_r; lia]))).
  set (S := cy * 2 ^ 52 + R) in *.
  replace (round53 S * 2 ^ 52 * 2 ^ 52 / 2 ^ (104 + 52)) with (round53 S / 2 ^ 52).
  2:{ change (2 ^ (104 + 52)) with (2 ^ 52 * (2 ^ 52 * 2 ^ 52)).
      rewrite <- Z.mul_assoc. rewrite Z.div_mul_cancel_r; [reflexivity | lia | lia]. }
  destruct (Z.eq_dec S 0) as [E0 | NZ].
  - rewrite E0, round53_0. unfold S, N in *.
    change (2 ^ 52) with 4503599627370496 in *. zdiv.
  - assert (HS : 0 < S) by (unfold S; change (2 ^ 52) with 4503599627370496; lia).
    pose proof (round53_error S ltac:(lia)) as HeS.
    assert (HRlo : hc / 10 * 11 * 2 ^ 52 <= R).
    { destruct (Z.eq_dec hc 0) as [E0 | Hnz].
      - unfold R, N. rewrite E0. vm_compute. discriminate.
      - unfold R. apply (round53_ge N (hc / 10 * 11) 52); unfold N; try lia.
        change (2 ^ 52) with 4503599627370496. zdiv. }
    assert (Hlt : S < 2 ^ (52 + 53)).
    { unfold S, N in *. change (2 ^ (52 + 53)) with 40564819207303340847894502572032.
      change (2 ^ 52) with 4503599627370496. lia. }
    assert (Hge : (cy + hc + hc / 10) * 2 ^ 52 <= S).
    { unfold S, N in *. change (2 ^ 52) with 4503599627370496 in *.
      destruct (Z.eq_dec (hc mod 10) 0); zdiv. }
    assert (Hlo : (cy + hc + hc / 10) * 2 ^ 52 <= round53 S).
    { apply round53_ge; [lia | lia | exact Hlt | exact Hge]. }
    unfold S, N in *. change (2 ^ 52) with 4503599627370496 in *.
    change (2 ^ 53) with 9007199254740992 in *. zdiv.
Qed.

(** [1 - padding_percent * 2] is the double nearest to 0.8. *)
Lemma logo_fraction :
  sub (FO := binary64) (Int 1) (mul (FO := binary64) (padding_percent (FO := binary64)) (Int 2)) =
  Float (S754_finite false 7205759403792794 (-53)).
Proof. vm_compute. reflexivity. Qed.

(** [int(size * 0.8)] in binary64. *)
Lemma logo_size_floor (s : Z) :
  0 <= s < 2 ^ 31 -> logo_size (FO := binary64) s = 4 * s / 5.
Proof.
  intros Hs. unfold logo_size. rewrite logo_fraction.
  change (int (mul (Int s) (Float (S754_finite false 7205759403792794 (-53)))))
    with (trunc (b64_value (SFmul 53 1024 (b64_of_Z s)
                              (S754_finite false 7205759403792794 (-53))))).
  pose proof (Rep_mul_lit s 7205759403792794 53 Hs ltac:(lia) ltac:(cbn; lia)) as Hx.
  change (- (53)) with (-53) in Hx.
  rewrite (Rep_trunc (52 + 53) _ _ ltac:(lia) Hx).
  change (2 ^ 31) with 2147483648 in *.
  set (N := s * 7205759403792794) in *. set (R := round53 N) in *.
  assert (HN : 0 <= N) by (unfold N; lia).
  pose proof (round53_error N HN) as He. fold R in He.
  replace (R * 2 ^ 52 / 2 ^ (52 + 53)) with (R / 2 ^ 53).
  2:{ change (2 ^ (52 + 53)) with (2 ^ 53 * 2 ^ 52).
      rewrite Z.div_mul_cancel_r; [reflexivity | lia | lia]. }
  destruct (Z.eq_dec (s mod 5) 0) as [E | NE].
  - assert (ER : R = s / 5 * 4 * 2 ^ 53).
    { destruct (Z.eq_dec s 0) as [E0 | Hnz].
      - unfold R, N. rewrite E0. vm_compute. reflexivity.
      - unfold R. apply (round53_near N (s / 5 * 4) 53); unfold N; try lia.
        change (2 ^ 54) with 18014398509481984. change (2 ^ 53) with 9007199254740992.
        zdiv. }
    rewrite ER, Z.div_mul by lia. zdiv.
  - unfold N in *. change (2 ^ 53) with 9007199254740992 in *. zdiv.
Qed.

(** The computed box in binary64, for every size a raster can have. *)
Lemma initial_box_binary64 (w h : Z) :
  1 <= w < 2 ^ 31 -> 1 <= h < 2 ^ 31 ->
  initial_box (FO := binary64) w h =
    let hc := Z.min (h / 2) (w / 5) in
    mkBox (w / 2 - hc) (h / 2 + hc / 10 - hc) (w / 2 + hc) (h / 2 + hc / 10 + hc).
Proof.
  intros Hw Hh. unfold initial_box. cbv zeta.
  rewrite (half_crop_binary64 w h) by lia. unfold center_x, center_y.
  set (hc := Z.min (h / 2) (w / 5)). set (cy := h / 2).
  change (2 ^ 31) with 2147483648 in *.
  assert (Hhc : 0 <= hc <= cy) by (unfold hc, cy; zdiv).
  assert (Hcy : cy < 2147483648) by (unfold cy; zdiv).
  change (int (sub (Int cy) (mul (Int hc) (Float (@float_lit _ binary64 9 10)))))
    with (trunc (b64_value (SFsub 53 1024 (b64_of_Z cy)
                   (SFmul 53 1024 (b64_of_Z hc) (@float_lit _ binary64 9 10))))).
  change (int (add (Int cy) (mul (Int hc) (Float (@float_lit _ binary64 11 10)))))
    with (trunc (b64_value (SFadd 53 1024 (b64_of_Z cy)
                   (SFmul 53 1024 (b64_of_Z hc) (@float_lit _ binary64 11 10))))).
  rewrite top_binary64, bottom_binary64 by (change (2 ^ 31) with 2147483648; lia).
  f_equal; lia.
Qed.

Lemma initial_box_binary64_square (w h : Z) :
  1 <= w < 2 ^ 31 -> 1 <= h < 2 ^ 31 ->
  crop_width (initial_box (FO := binary64) w h) =
  crop_height (initial_box (FO := binary64) w h).
Proof.
  intros Hw Hh. rewrite initial_box_binary64 by assumption.
  unfold crop_width, crop_height. cbn [left top right bottom]. lia.
Qed.

Lemma make_square_binary64 (w h : Z) :
  1 <= w < 2 ^ 31 -> 1 <= h < 2 ^ 31 ->
  make_square (initial_box (FO := binary64) w h) = initial_box (FO := binary64) w h.
Proof.
  intros Hw Hh. unfold make_square.
  rewrite (initial_box_binary64_square w h Hw Hh), Z.ltb_irrefl. reflexivity.
Qed.

(** The region handed to [crop]: only the bottom edge depends on the
    clamp. *)
Lemma crop_region_binary64 (w h : Z) :
  1 <= w < 2 ^ 31 -> 1 <= h < 2 ^ 31 ->
  crop_region (FO := binary64) w h =
    let hc := Z.min (h / 2) (w / 5) in
    mkBox (w / 2 - hc) (h / 2 + hc / 10 - hc) (w / 2 + hc)
          (Z.min h (h / 2 + hc / 10 + hc)).
Proof.
  intros Hw Hh. unfold crop_region. rewrite make_square_binary64 by assumption.
  rewrite initial_box_binary64 by assumption. unfold clamp_bounds.
  cbn [left top right bottom]. cbv zeta.
  change (2 ^ 31) with 2147483648 in *. f_equal; zdiv.
Qed.

(** ** The crop geometry over exact floats *)

(** Throughout this part floats are exact: the instance in force is
    [exactQ]. *)
Section ExactGeometry.
Lemma half_crop_exact (w h : Z) : half_crop w h = Z.min (h / 2) (w / 5).
Proof.
  unfold half_crop, crop_size, min, ltb.
  destruct (negb _) eqn:E; revert E; qnorm; intros E.
  - apply negb_true_iff, Z.leb_gt in E. zdiv.
  - apply negb_false_iff, Z.leb_le in E. zdiv.
Qed.

Lemma initial_box_exact (w h : Z) :
  initial_box w h =
    let hc := Z.min (h / 2) (w / 5) in
    {| left := w / 2 - hc;
       top := Z.quot (10 * (h / 2) - 9 * hc) 10;
       right := w / 2 + hc;
       bottom := Z.quot (10 * (h / 2) + 11 * hc) 10 |}.
Proof.
  unfold initial_box. rewrite half_crop_exact. unfold center_x, center_y.
  cbv zeta. f_equal; qnorm; f_equal; lia.
Qed.

(** On a source of positive size the half edge lies between 0 and either
    centre coordinate. *)
Lemma half_crop_bounds (w h : Z) :
  1 <= w -> 1 <= h ->
  0 <= half_crop w h <= center_x w /\ half_crop w h <= center_y h.
Proof.
  intros Hw Hh. rewrite half_crop_exact. unfold center_x, center_y. zdiv.
Qed.

(** The computed box is already square: the 0.9 / 1.1 bias moves the box
    down without changing its height. *)
Lemma initial_box_square (w h : Z) :
  1 <= w -> 1 <= h ->
  crop_width (initial_box w h) = crop_height (initial_box w h).
Proof.
  intros Hw Hh. rewrite initial_box_exact. unfold crop_width, crop_height.
  cbn [left top right bottom]. zdiv.
Qed.

Lemma make_square_initial_box (w h : Z) :
  1 <= w -> 1 <= h -> make_square (initial_box w h) = initial_box w h.
Proof.
  intros Hw Hh. unfold make_square.
  rewrite (initial_box_square w h Hw Hh), Z.ltb_irrefl. reflexivity.
Qed.

Lemma crop_region_exact (w h : Z) :
  1 <= w -> 1 <= h ->
  crop_region w h = clamp_bounds w h (initial_box w h).
Proof.
  intros Hw Hh. unfold crop_region. now rewrite make_square_initial_box.
Qed.
End ExactGeometry.

(** ** The square-forcing step *)

(** After the step the two dimensions differ by at most one, whatever the
    box. *)
Lemma make_square_within_one (b : Box) :
  Z.abs (crop_width (make_square b) - crop_height (make_square b)) <= 1.
Proof.
  unfold make_square.
  destruct (Z.ltb_spec (crop_width b) (crop_height b)) as [H1 | H1];
    [| destruct (Z.ltb_spec (crop_height b) (crop_width b)) as [H2 | H2]];
    unfold crop_width, crop_height in *; cbn [left top right bottom]; zdiv.
Qed.



(** ** Clamping *)

(** C9: for every source image of positive size the box handed to [crop]
    lies inside the source and is not inverted. *)
Theorem crop_region_inside (w h : Z) :
  1 <= w < 2 ^ 31 -> 1 <= h < 2 ^ 31 ->
  let b := crop_region (FO := binary64) w h in
  0 <= left b <= right b /\ right b <= w /\
  0 <= top b <= bottom b /\ bottom b <= h.
Proof.
  intros Hw Hh. rewrite crop_region_binary64 by assumption.
  cbv zeta. cbn [left top right bottom].
  change (2 ^ 31) with 2147483648 in *. zdiv.
Qed.

Lemma crop_region_inside_witness :
  let b := crop_region (FO := binary64) 1000 40 in
  0 <= left b <= right b /\ right b <= 1000 /\
  0 <= top b <= bottom b /\ bottom b <= 40.
Proof. apply (crop_region_inside 1000 40); lia. Defined.

(** C5: when the computed region reaches outside the source, the clamped
    region still has positive width and positive height. *)
Theorem clamp_keeps_region_nonempty (w h : Z) :
  1 <= w < 2 ^ 31 -> 1 <= h < 2 ^ 31 ->
  exceeds w h (make_square (initial_box (FO := binary64) w h)) ->
  0 < crop_width (crop_region (FO := binary64) w h) /\
  0 < crop_height (crop_region (FO := binary64) w h).
Proof.
  intros Hw Hh. rewrite make_square_binary64 by assumption.
  rewrite crop_region_binary64, initial_box_binary64 by assumption.
  unfold exceeds, crop_width, crop_height. cbv zeta. cbn [left top right bottom].
  change (2 ^ 31) with 2147483648 in *. zdiv.
Qed.

Lemma clamp_keeps_region_nonempty_witness :
  exceeds 1000 40 (make_square (initial_box (FO := binary64) 1000 40)) /\
  0 < crop_width (crop_region (FO := binary64) 1000 40) /\
  0 < crop_height (crop_region (FO := binary64) 1000 40).
Proof.
  assert (E : exceeds 1000 40 (make_square (initial_box (FO := binary64) 1000 40))).
  { right. right. right. vm_compute. reflexivity. }
  split; [exact E | apply (clamp_keeps_region_nonempty 1000 40); [lia | lia | exact E]].
Defined.

(** Without the overshoot the region can be empty: a source narrower than
    5 pixels or lower than 2 has [half_crop = 0]. *)
Lemma crop_region_empty_on_tiny_source :
  crop_region (FO := exactQ) 1 1 = mkBox 0 0 0 0 /\
  crop_region (FO := binary64) 1 1 = mkBox 0 0 0 0.
Proof. split; vm_compute; reflexivity. Qed.

(** ** Exact floats against binary64 *)

(** A cross-check by computation: evaluated with exact floats and in
    binary64, the definitions give the same crop region on every source of
    at most 96x96 pixels and on a sample of larger ones. *)
Lemma floats_agree_sound (ws hs : list Z) (w h : Z) :
  floats_agree ws hs = true -> In w ws -> In h hs ->
  crop_region (FO := binary64) w h = crop_region (FO := exactQ) w h.
Proof.
  unfold floats_agree. intros E Iw Ih.
  rewrite forallb_forall in E. specialize (E w Iw).
  rewrite forallb_forall in E. specialize (E h Ih).
  unfold box_eqb in E.
  repeat (apply andb_true_iff in E; destruct E as [E ?]).
  destruct (crop_region w h), (crop_region w h). cbn [left top right bottom] in *.
  f_equal; now apply Z.eqb_eq.
Qed.

Lemma In_upto (n : nat) (z : Z) : 1 <= z <= Z.of_nat n -> In z (upto n).
Proof.
  intros Hz. unfold upto. apply in_map_iff. exists (Z.to_nat z).
  split; [lia |]. apply in_seq. lia.
Qed.

Lemma floats_agree_96 : floats_agree (upto 96) (upto 96) = true.
Proof. vm_compute. reflexivity. Qed.

Lemma binary64_agrees_small (w h : Z) :
  1 <= w <= 96 -> 1 <= h <= 96 ->
  crop_region (FO := binary64) w h = crop_region (FO := exactQ) w h.
Proof.
  intros Hw Hh. apply (floats_agree_sound (upto 96) (upto 96)).
  - exact floats_agree_96.
  - apply In_upto. lia.
  - apply In_upto. lia.
Qed.

(** X9: evaluated in binary64, the region of every source of at most
    96x96 pixels lies inside the source and is not inverted. *)
Lemma crop_region_inside_binary64 (w h : Z) :
  1 <= w <= 96 -> 1 <= h <= 96 ->
  let b := crop_region (FO := binary64) w h in
  0 <= left b <= right b /\ right b <= w /\
  0 <= top b <= bottom b /\ bottom b <= h.
Proof.
  intros Hw Hh. rewrite binary64_agrees_small by assumption.
  rewrite crop_region_exact by lia.
  rewrite initial_box_exact. unfold clamp_bounds. cbn [left top right bottom].
  cbv zeta. zdiv.
Qed.

Lemma binary64_agrees_wide :
  floats_agree (upto 400) [1; 2; 7; 40; 399; 400; 1080] = true /\
  floats_agree [1; 4; 5; 99; 100; 1000; 1920] (upto 400) = true.
Proof. split; vm_compute; reflexivity. Qed.

Lemma binary64_agrees_large :
  floats_agree [480; 800; 1024; 1920; 4096; 65535; 1000000; 2147483647]
               [40; 400; 600; 1080; 4096; 99999; 2000000; 2147483647] = true.
Proof. vm_compute. reflexivity. Qed.

(** ** Logo size and centring *)

Lemma logo_size_exact (s : Z) : logo_size (FO := exactQ) s = Z.quot (4 * s) 5.
Proof. unfold logo_size, padding_percent. qnorm. zdiv. Qed.

Lemma logo_size_binary64 :
  logo_size (FO := binary64) <$> ICON_SIZES = [57; 76; 102; 115; 121; 153; 307; 409].
Proof. vm_compute. reflexivity. Qed.

Ltac each_size H :=
  unfold ICON_SIZES in H;
  repeat (apply elem_of_cons in H; destruct H as [-> | H]);
  [.. | apply elem_of_nil in H; contradiction].

(** On the configured sizes binary64 computes the floor of four fifths. *)
Lemma logo_size_configured (s : Z) :
  s ∈ ICON_SIZES ->
  72 <= s <= 512 /\ logo_size (FO := binary64) s = 4 * s / 5.
Proof. intros Hs. each_size Hs; (split; [lia | vm_compute; reflexivity]). Qed.

(** C2: for every configured size the logo edge is [size * (1 - 2 * 0.10)]
    rounded down to an integer, in binary64 as with exact floats; for size
    72 it is 57, pasted 7 pixels from the left and top edges, which leaves
    8 pixels on the right and bottom. *)
Theorem logo_edge_is_rounded_size :
  Forall (fun s =>
            logo_size (FO := binary64) s = Qfloor (inject_Z s * (1 - 2 * (10 # 100)))
            /\ logo_size (FO := exactQ) s = logo_size (FO := binary64) s)
         ICON_SIZES /\
  logo_size (FO := binary64) 72 = 57 /\
  offset (FO := binary64) 72 = 7 /\
  72 - (offset (FO := binary64) 72 + logo_size (FO := binary64) 72) = 8.
Proof.
  split; [| vm_compute; repeat split; reflexivity].
  unfold ICON_SIZES. repeat constructor; vm_compute; reflexivity.
Qed.

(** C10: for every configured size the logo edge is the floor of
    [0.8 * size], lies in [1, size), the centring offset is non-negative
    and offset plus edge stays within the size, so every pixel the paste
    of the resized logo touches is a pixel of the icon canvas. *)
Theorem logo_pasted_within_canvas
    (resample : Image -> Z * Z -> Z -> Z -> pixel) (square : Image) (s : Z) :
  s ∈ ICON_SIZES ->
  let edge := logo_size (FO := binary64) s in
  let off := offset (FO := binary64) s in
  edge = Qfloor (inject_Z s * (8 # 10)) /\
  1 <= edge < s /\
  0 <= off /\
  off + edge <= s /\
  forall x y : Z,
    inside (resize resample square (edge, edge)) (x - off) (y - off) = true ->
    inside (new RGBA (s, s) BACKGROUND_COLOR) x y = true.
Proof.
  intros Hs. destruct (logo_size_configured s Hs) as [Hr He].
  cbv zeta. unfold offset. rewrite He.
  assert (Hq : Qfloor (inject_Z s * (8 # 10)) = 4 * s / 5).
  { unfold Qfloor, Qmult, inject_Z. cbn [Qnum Qden]. zdiv. }
  rewrite Hq. repeat split; try zdiv.
  intros x y. unfold inside, resize, new. cbn [width height fst snd].
  rewrite !andb_true_iff, !Z.leb_le, !Z.ltb_lt. zdiv.
Qed.

Lemma logo_pasted_within_canvas_witness :
  72 ∈ ICON_SIZES /\
  logo_size (FO := binary64) 72 = Qfloor (inject_Z 72 * (8 # 10)) /\
  1 <= logo_size (FO := binary64) 72 < 72 /\
  0 <= offset (FO := binary64) 72 /\
  offset (FO := binary64) 72 + logo_size (FO := binary64) 72 <= 72.
Proof.
  assert (H : 72 ∈ ICON_SIZES) by (unfold ICON_SIZES; apply elem_of_cons; left; reflexivity).
  split; [exact H |].
  pose proof (logo_pasted_within_canvas nearest logo_800x400 72 H) as (H1 & H2 & H3 & H4 & _).
  repeat split; assumption || apply H2.
Defined.

(** ** The 800x400 scenario *)

Lemma pad_square_size (blend : Z -> Z -> Z -> Z) (cropped : Image) :
  width (pad_square blend cropped) = Z.max (width cropped) (height cropped) /\
  height (pad_square blend cropped) = Z.max (width cropped) (height cropped).
Proof. split; reflexivity. Qed.

(** C6: on an 800x400 source the computed region is the 320x320 box
    (240, 56, 560, 376): centred on the image centre horizontally and 16
    pixels below it vertically.  Squaring and clamping leave it unchanged,
    its edge 320 is at most min(800, 400), and the working square is
    320x320.  Exact floats give the same box. *)
Theorem scenario_800x400 (blend : Z -> Z -> Z -> Z) (original : Image) :
  width original = 800 -> height original = 400 ->
  let b0 := initial_box (FO := binary64) 800 400 in
  let b := crop_region (FO := binary64) 800 400 in
  let square := working_square (FO := binary64) blend original in
  b0 = mkBox 240 56 560 376 /\
  crop_width b0 = 320 /\ crop_height b0 = 320 /\
  left b0 + right b0 = 2 * center_x 800 /\
  top b0 + bottom b0 = 2 * (center_y 400 + 16) /\
  b = b0 /\
  crop_width b <= Z.min 800 400 /\
  width square = crop_width b /\ height square = crop_width b /\
  initial_box (FO := exactQ) 800 400 = b0.
Proof.
  intros Hw Hh.
  assert (E0 : initial_box (FO := binary64) 800 400 = mkBox 240 56 560 376)
    by (vm_compute; reflexivity).
  assert (E1 : crop_region (FO := binary64) 800 400 = mkBox 240 56 560 376)
    by (vm_compute; reflexivity).
  assert (E2 : initial_box (FO := exactQ) 800 400 = mkBox 240 56 560 376)
    by (vm_compute; reflexivity).
  cbv zeta. unfold working_square. rewrite Hw, Hh, E0, E1, E2.
  cbv zeta. cbn [left top right bottom].
  destruct (pad_square_size blend (crop original (240, 56, 560, 376))) as [-> ->].
  unfold crop_width, crop_height, center_x, center_y.
  cbn [left top right bottom crop width height].
  repeat split; reflexivity || (vm_compute; discriminate).
Qed.

Lemma scenario_800x400_witness :
  width (working_square (FO := binary64) lerp255 logo_800x400) = 320 /\
  height (working_square (FO := binary64) lerp255 logo_800x400) = 320.
Proof.
  pose proof (scenario_800x400 lerp255 logo_800x400 eq_refl eq_refl)
    as (_ & _ & _ & _ & _ & E & _ & Hwd & Hht & _).
  cbv zeta in E, Hwd, Hht. rewrite Hwd, Hht. split; vm_compute; reflexivity.
Defined.

(** ** The working square *)

(** C3: padding a cropped raster gives an RGBA square whose edge is the
    larger of the two cropped dimensions.  It is the paste of the cropped
    raster on a canvas whose every pixel is fully transparent, at offsets
    that leave margins equal up to one pixel on opposite sides; outside the
    pasted box the square is still transparent. *)
Theorem pad_square_centred (blend : Z -> Z -> Z -> Z) (cropped : Image) :
  let cropped_w := width cropped in
  let cropped_h := height cropped in
  let max_dim := Z.max cropped_w cropped_h in
  let paste_x := (max_dim - cropped_w) / 2 in
  let paste_y := (max_dim - cropped_h) / 2 in
  let canvas := new RGBA (max_dim, max_dim) [0; 0; 0; 0] in
  let square := pad_square blend cropped in
  width square = max_dim /\ height square = max_dim /\ mode square = RGBA /\
  (forall x y : Z, alpha (mode canvas) (getpixel canvas x y) = 0) /\
  square = paste blend canvas cropped (paste_x, paste_y) cropped /\
  0 <= paste_x <= max_dim - cropped_w - paste_x /\
  max_dim - cropped_w - paste_x <= paste_x + 1 /\
  0 <= paste_y <= max_dim - cropped_h - paste_y /\
  max_dim - cropped_h - paste_y <= paste_y + 1 /\
  (forall x y : Z,
      getpixel square x y =
        if inside cropped (x - paste_x) (y - paste_y) then
          blend_pixel blend
            (band_a (getpixel cropped (x - paste_x) (y - paste_y)))
            transparent
            (convert_pixel (mode cropped) RGBA
               (getpixel cropped (x - paste_x) (y - paste_y)))
        else transparent).
Proof.
  cbv zeta. repeat split; try reflexivity; zdiv.
Qed.

(** The square the generator works from has the edge of the larger side of
    the crop region. *)
Lemma working_square_size {F : Type} {FO : PyFloat F}
    (blend : Z -> Z -> Z -> Z) (original : Image) :
  let b := crop_region (width original) (height original) in
  width (working_square blend original) = Z.max (crop_width b) (crop_height b) /\
  height (working_square blend original) = Z.max (crop_width b) (crop_height b).
Proof. split; reflexivity. Qed.

(** ** Saving the icons *)

Section Saving.
Context {A : Type} (path : A -> string) (img : A -> Image).

(** A loop that saves [img a] at [path a] for each [a] of a list leaves
    every other path alone. *)
Lemma save_loop_other (l : list A) (fs : files) (p : string) :
  p ∉ path <$> l ->
  foldl (fun fs a => save (img a) (path a) fs) fs l !! p = fs !! p.
Proof.
  revert fs. induction l as [| a l IH]; intros fs Hp; [reflexivity |].
  rewrite fmap_cons, not_elem_of_cons in Hp. destruct Hp as [Hne Hp].
  cbn [foldl]. rewrite IH by assumption.
  unfold save. now rewrite lookup_insert_ne.
Qed.

(** When the paths are pairwise distinct each of them ends up holding its
    own image. *)
Lemma save_loop_lookup (l : list A) (fs : files) (a : A) :
  NoDup (path <$> l) -> a ∈ l ->
  foldl (fun fs a => save (img a) (path a) fs) fs l !! path a = Some (img a).
Proof.
  revert fs. induction l as [| b l IH]; intros fs Hnd Ha.
  - now apply elem_of_nil in Ha.
  - rewrite fmap_cons, NoDup_cons in Hnd. destruct Hnd as [Hb Hnd].
    apply elem_of_cons in Ha. cbn [foldl].
    destruct Ha as [-> | Ha]; [| now apply IH].
    rewrite save_loop_other by assumption.
    unfold save. apply lookup_insert_eq.
Qed.

(** Running the loop again on its own result changes nothing. *)
Lemma save_loop_twice (l : list A) (fs : files) :
  NoDup (path <$> l) ->
  let fs1 := foldl (fun fs a => save (img a) (path a) fs) fs l in
  foldl (fun fs a => save (img a) (path a) fs) fs1 l = fs1.
Proof.
  intros Hnd fs1. apply map_eq. intros p.
  destruct (decide (p ∈ path <$> l)) as [Hin | Hout].
  - apply list_elem_of_fmap in Hin. destruct Hin as (a & -> & Ha).
    unfold fs1. now rewrite !save_loop_lookup.
  - now rewrite save_loop_other.
Qed.
End Saving.

(** ** The generator over the storage *)

Lemma output_paths :
  output_path <$> ICON_SIZES =
    ["image/icon-72x72.png"; "image/icon-96x96.png"; "image/icon-128x128.png";
     "image/icon-144x144.png"; "image/icon-152x152.png"; "image/icon-192x192.png";
     "image/icon-384x384.png"; "image/icon-512x512.png"].
Proof. vm_compute. reflexivity. Qed.

Lemma output_paths_NoDup : NoDup (output_path <$> ICON_SIZES).
Proof. rewrite output_paths. apply (bool_decide_unpack _). vm_compute. reflexivity. Qed.

(** The logo is not one of the files the loop writes. *)
Lemma source_not_output : SOURCE_LOGO ∉ output_path <$> ICON_SIZES.
Proof. rewrite output_paths. apply (bool_decide_unpack _). vm_compute. reflexivity. Qed.

Lemma output_path_name (s : Z) :
  output_path s = OUTPUT_DIR +:+ "/icon-" +:+ pretty s +:+ "x" +:+ pretty s +:+ ".png".
Proof. reflexivity. Qed.

Section Run.
Context {F : Type} {FO : PyFloat F}.
Variable blend : Z -> Z -> Z -> Z.
Variable resample : Image -> Z * Z -> Z -> Z -> pixel.

(** Every raster the loop builds is an RGB raster of the requested size. *)
Lemma make_icon_shape (square : Image) (size : Z) :
  let icon := make_icon blend resample square size in
  width icon = size /\ height icon = size /\ mode icon = RGB.
Proof. repeat split. Qed.

(** With the logo in place the generator runs to the end of its loop. *)
Lemma create_pwa_icons_runs (fs : files) (src : Image) :
  open fs SOURCE_LOGO = Some src ->
  create_pwa_icons blend resample fs =
    Some (foldl (fun fs size =>
                   save (make_icon blend resample
                           (working_square blend (convert RGBA src)) size)
                        (output_path size) fs)
                fs ICON_SIZES).
Proof. intros Ho. unfold create_pwa_icons. now rewrite Ho. Qed.

Lemma create_pwa_icons_fails (fs : files) :
  open fs SOURCE_LOGO = None -> create_pwa_icons blend resample fs = None.
Proof. intros Ho. unfold create_pwa_icons. now rewrite Ho. Qed.

(** C1: once the logo opens, the generator finishes and, for every
    configured size s, the file it leaves at that size's path is an RGB
    raster of exactly s x s pixels, every pixel of which is fully
    opaque. *)
Theorem icons_sized_and_opaque (fs : files) (src : Image) :
  open fs SOURCE_LOGO = Some src ->
  exists fs' : files,
    create_pwa_icons blend resample fs = Some fs' /\
    forall s : Z, s ∈ ICON_SIZES ->
      exists icon : Image,
        open fs' (output_path s) = Some icon /\
        width icon = s /\ height icon = s /\ mode icon = RGB /\
        forall x y : Z, alpha (mode icon) (getpixel icon x y) = 255.
Proof.
  intros Ho. eexists. split; [apply (create_pwa_icons_runs fs src Ho) |].
  intros s Hs. eexists. split.
  - unfold open.
    apply (save_loop_lookup output_path
             (make_icon blend resample (working_square blend (convert RGBA src))));
      [apply output_paths_NoDup | exact Hs].
  - repeat split.
Qed.

(** C7: a second run on the storage the first run left finds the same
    logo and leaves the storage as it is; and any run on a storage holding
    the same logo writes, for every configured size, the same raster. *)
Theorem generator_idempotent (fs : files) (src : Image) :
  open fs SOURCE_LOGO = Some src ->
  exists fs1 : files,
    create_pwa_icons blend resample fs = Some fs1 /\
    open fs1 SOURCE_LOGO = Some src /\
    create_pwa_icons blend resample fs1 = Some fs1 /\
    forall fs' : files, open fs' SOURCE_LOGO = Some src ->
      exists fs1' : files,
        create_pwa_icons blend resample fs' = Some fs1' /\
        forall s : Z, s ∈ ICON_SIZES ->
          open fs1' (output_path s) = open fs1 (output_path s) /\
          is_Some (open fs1 (output_path s)).
Proof.
  intros Ho. eexists. split; [apply (create_pwa_icons_runs fs src Ho) |].
  set (img := make_icon blend resample (working_square blend (convert RGBA src))).
  assert (Ho1 : open (foldl (fun fs size => save (img size) (output_path size) fs)
                        fs ICON_SIZES) SOURCE_LOGO = Some src).
  { unfold open. rewrite (save_loop_other output_path img); [exact Ho |].
    apply source_not_output. }
  split; [exact Ho1 |]. split.
  - rewrite (create_pwa_icons_runs _ src Ho1). f_equal.
    apply (save_loop_twice output_path img ICON_SIZES fs output_paths_NoDup).
  - intros fs' Ho'. eexists. split; [apply (create_pwa_icons_runs fs' src Ho') |].
    intros s Hs. unfold open.
    rewrite !(save_loop_lookup output_path img ICON_SIZES _ s output_paths_NoDup Hs).
    split; [reflexivity | eexists; reflexivity].
Qed.

(** C8: the generator writes the eight files icon-SxS.png of the output
    directory, S ranging over the configured sizes: eight distinct paths,
    each holding a raster afterwards, and no other path of the storage
    changes. *)
Theorem one_file_per_size (fs : files) (src : Image) :
  open fs SOURCE_LOGO = Some src ->
  exists fs' : files,
    create_pwa_icons blend resample fs = Some fs' /\
    ICON_SIZES = [72; 96; 128; 144; 152; 192; 384; 512] /\
    (forall s : Z,
        output_path s =
          OUTPUT_DIR +:+ "/" +:+ "icon-" +:+ pretty s +:+ "x" +:+ pretty s +:+ ".png") /\
    output_path <$> ICON_SIZES =
      ["image/icon-72x72.png"; "image/icon-96x96.png"; "image/icon-128x128.png";
       "image/icon-144x144.png"; "image/icon-152x152.png"; "image/icon-192x192.png";
       "image/icon-384x384.png"; "image/icon-512x512.png"] /\
    NoDup (output_path <$> ICON_SIZES) /\
    (forall s : Z, s ∈ ICON_SIZES -> is_Some (fs' !! output_path s)) /\
    (forall p : string, p ∉ output_path <$> ICON_SIZES -> fs' !! p = fs !! p) /\
    dom fs' = dom fs ∪ list_to_set (output_path <$> ICON_SIZES).
Proof.
  intros Ho. eexists. split; [apply (create_pwa_icons_runs fs src Ho) |].
  set (img := make_icon blend resample (working_square blend (convert RGBA src))).
  assert (Hin : forall s : Z, s ∈ ICON_SIZES ->
            foldl (fun fs size => save (img size) (output_path size) fs) fs ICON_SIZES
              !! output_path s = Some (img s)).
  { intros s Hs. apply (save_loop_lookup output_path img); [apply output_paths_NoDup | exact Hs]. }
  assert (Hout : forall p : string, p ∉ output_path <$> ICON_SIZES ->
            foldl (fun fs size => save (img size) (output_path size) fs) fs ICON_SIZES
              !! p = fs !! p).
  { intros p Hp. now apply (save_loop_other output_path img). }
  split; [reflexivity |]. split; [intros s; reflexivity |].
  split; [apply output_paths |]. split; [apply output_paths_NoDup |].
  split; [intros s Hs; rewrite (Hin s Hs); eexists; reflexivity |].
  split; [exact Hout |].
  apply set_eq. intros p. rewrite elem_of_union, !elem_of_dom, elem_of_list_to_set.
  destruct (decide (p ∈ output_path <$> ICON_SIZES)) as [Hp | Hp].
  - split; [intros _; now right |]. intros _.
    apply list_elem_of_fmap in Hp. destruct Hp as (s & -> & Hs).
    rewrite (Hin s Hs). eexists; reflexivity.
  - rewrite (Hout p Hp). split; [intros H; now left | intros [H | H]; [exact H | contradiction]].
Qed.
End Run.

(** ** The theorems at work on the sample storage *)

Lemma storage_holds_logo : open storage SOURCE_LOGO = Some logo_800x400.
Proof. reflexivity. Defined.

Lemma size_72_configured : 72 ∈ ICON_SIZES.
Proof. unfold ICON_SIZES. apply elem_of_cons. left. reflexivity. Defined.

Lemma icons_sized_and_opaque_witness :
  open storage SOURCE_LOGO = Some logo_800x400 /\
  exists fs' : files,
    create_pwa_icons (FO := binary64) lerp255 nearest storage = Some fs' /\
    exists icon : Image,
      open fs' (output_path 72) = Some icon /\
      width icon = 72 /\ height icon = 72 /\ mode icon = RGB /\
      alpha (mode icon) (getpixel icon 36 36) = 255.
Proof.
  split; [exact storage_holds_logo |].
  destruct (icons_sized_and_opaque (FO := binary64) lerp255 nearest
              storage logo_800x400 storage_holds_logo) as (fs' & Hrun & Hall).
  exists fs'. split; [exact Hrun |].
  destruct (Hall 72 size_72_configured) as (icon & Ho & Hw & Hh & Hm & Ha).
  exists icon. repeat split; try assumption. apply Ha.
Defined.

Lemma generator_idempotent_witness :
  open storage SOURCE_LOGO = Some logo_800x400 /\
  exists fs1 : files,
    create_pwa_icons (FO := binary64) lerp255 nearest storage = Some fs1 /\
    create_pwa_icons (FO := binary64) lerp255 nearest fs1 = Some fs1.
Proof.
  split; [exact storage_holds_logo |].
  destruct (generator_idempotent (FO := binary64) lerp255 nearest
              storage logo_800x400 storage_holds_logo) as (fs1 & Hrun & _ & Hagain & _).
  exists fs1. split; assumption.
Defined.

Lemma one_file_per_size_witness :
  open storage SOURCE_LOGO = Some logo_800x400 /\
  exists fs' : files,
    create_pwa_icons (FO := binary64) lerp255 nearest storage = Some fs' /\
    is_Some (fs' !! "image/icon-72x72.png") /\
    fs' !! "image/favicon.ico" = None.
Proof.
  split; [exact storage_holds_logo |].
  destruct (one_file_per_size (FO := binary64) lerp255 nearest
              storage logo_800x400 storage_holds_logo)
    as (fs' & Hrun & _ & _ & Hp & _ & Hin & Hout & _).
  exists fs'. split; [exact Hrun |]. split.
  - apply (Hin 72 size_72_configured).
  - rewrite Hout; [reflexivity |]. rewrite Hp.
    apply (bool_decide_unpack _). vm_compute. reflexivity.
Defined.

(** * Further properties of the script *)

(** ** Closed forms of the crop geometry *)

(** X1: the half edge of the crop is the smaller of half the height and a
    fifth of the width, both rounded down. *)
Theorem half_crop_closed_form (w h : Z) :
  1 <= w < 2 ^ 31 -> 0 <= h < 2 ^ 31 ->
  half_crop (FO := binary64) w h = Z.min (h / 2) (w / 5).
Proof. apply half_crop_binary64. Qed.

Lemma half_crop_closed_form_witness : half_crop (FO := binary64) 800 400 = 160.
Proof. rewrite (half_crop_closed_form 800 400) by lia. reflexivity. Defined.

(** X2: the computed box is the square of edge [2 * half_crop] centred on
    [center_x] and lying [half_crop // 10] pixels below [center_y]. *)
Theorem initial_box_closed_form (w h : Z) :
  1 <= w < 2 ^ 31 -> 1 <= h < 2 ^ 31 ->
  let hc := half_crop (FO := binary64) w h in
  initial_box (FO := binary64) w h =
    mkBox (center_x w - hc) (center_y h + hc / 10 - hc)
          (center_x w + hc) (center_y h + hc / 10 + hc).
Proof.
  intros Hw Hh. cbv zeta. rewrite initial_box_binary64 by assumption.
  rewrite half_crop_binary64 by lia. reflexivity.
Qed.

Lemma initial_box_closed_form_witness :
  initial_box (FO := binary64) 800 400 = mkBox 240 56 560 376.
Proof.
  rewrite (initial_box_closed_form 800 400) by lia. vm_compute. reflexivity.
Defined.

(** X3: on every box computed from a source image the square-forcing step
    changes nothing. *)
Theorem square_step_is_noop (w h : Z) :
  1 <= w < 2 ^ 31 -> 1 <= h < 2 ^ 31 ->
  make_square (initial_box (FO := binary64) w h) = initial_box (FO := binary64) w h.
Proof. intros Hw Hh. now apply make_square_binary64. Qed.

Lemma square_step_is_noop_witness :
  make_square (initial_box (FO := binary64) 1000 40) = initial_box (FO := binary64) 1000 40.
Proof. apply (square_step_is_noop 1000 40); lia. Defined.

(** A box whose sides differ by at most one pixel is left as it is. *)
Lemma make_square_fixed (b : Box) :
  Z.abs (crop_width b - crop_height b) <= 1 -> make_square b = b.
Proof.
  destruct b as [l t r bt]. unfold make_square, crop_width, crop_height.
  cbn [left top right bottom]. intros Hd.
  destruct (Z.ltb_spec (r - l) (bt - t)); [| destruct (Z.ltb_spec (bt - t) (r - l))];
    [f_equal; zdiv | f_equal; zdiv | reflexivity].
Qed.

(** X4: whatever the box, after the square-forcing step its width and
    height differ by at most one pixel. *)
Theorem square_step_within_one_pixel (b : Box) :
  Z.abs (crop_width (make_square b) - crop_height (make_square b)) <= 1.
Proof. apply make_square_within_one. Qed.

(** X5: the square-forcing step never shrinks a box, and applying it a
    second time changes nothing. *)
Theorem make_square_grows_and_settles (b : Box) :
  left (make_square b) <= left b /\ top (make_square b) <= top b /\
  right b <= right (make_square b) /\ bottom b <= bottom (make_square b) /\
  make_square (make_square b) = make_square b.
Proof.
  assert (G : left (make_square b) <= left b /\ top (make_square b) <= top b /\
              right b <= right (make_square b) /\ bottom b <= bottom (make_square b)).
  { destruct b as [l t r bt].
    unfold make_square, crop_width, crop_height. cbn [left top right bottom].
    destruct (Z.ltb_spec (r - l) (bt - t)); [| destruct (Z.ltb_spec (bt - t) (r - l))];
      cbn [left top right bottom]; zdiv. }
  repeat split; try apply G.
  apply make_square_fixed, make_square_within_one.
Qed.

(** ** What clamping does to the computed box *)

(** X6: clamping can only pull the bottom edge up to the source height;
    the other three edges of the computed box are already inside. *)
Theorem clamp_trims_only_bottom (w h : Z) :
  1 <= w < 2 ^ 31 -> 1 <= h < 2 ^ 31 ->
  let b := initial_box (FO := binary64) w h in
  crop_region (FO := binary64) w h =
    mkBox (left b) (top b) (right b) (Z.min h (bottom b)).
Proof.
  intros Hw Hh. cbv zeta. rewrite crop_region_binary64, initial_box_binary64 by assumption.
  reflexivity.
Qed.

Lemma clamp_trims_only_bottom_witness :
  crop_region (FO := binary64) 1000 40 = mkBox 480 2 520 40 /\
  bottom (initial_box (FO := binary64) 1000 40) = 42.
Proof.
  split; [| vm_compute; reflexivity].
  rewrite (clamp_trims_only_bottom 1000 40) by lia. vm_compute. reflexivity.
Defined.

(** Width and height of the region handed to [crop]. *)
Lemma crop_region_dims (w h : Z) :
  1 <= w < 2 ^ 31 -> 1 <= h < 2 ^ 31 ->
  let hc := Z.min (h / 2) (w / 5) in
  crop_width (crop_region (FO := binary64) w h) = 2 * hc /\
  0 <= crop_height (crop_region (FO := binary64) w h) <= 2 * hc /\
  (hc = 0 -> crop_height (crop_region (FO := binary64) w h) = 0).
Proof.
  intros Hw Hh. cbv zeta. rewrite crop_region_binary64 by assumption.
  unfold crop_width, crop_height. cbv zeta. cbn [left top right bottom].
  change (2 ^ 31) with 2147483648 in *. zdiv.
Qed.

(** X7: the working square of a source image has edge
    [2 * min(height // 2, width // 5)]: padding only ever adds rows, and
    the square is empty exactly when the source is narrower than 5 pixels
    or lower than 2. *)
Theorem working_square_edge (blend : Z -> Z -> Z -> Z) (original : Image) :
  1 <= width original < 2 ^ 31 -> 1 <= height original < 2 ^ 31 ->
  let edge := 2 * Z.min (height original / 2) (width original / 5) in
  let square := working_square (FO := binary64) blend original in
  width square = edge /\ height square = edge /\
  (edge = 0 <-> width original < 5 \/ height original < 2).
Proof.
  intros Hw Hh. cbv zeta.
  destruct (working_square_size (FO := binary64) blend original) as [-> ->].
  destruct (crop_region_dims (width original) (height original) Hw Hh) as (-> & Hc & _).
  cbv zeta in Hc. change (2 ^ 31) with 2147483648 in *. repeat split; try zdiv.
Qed.

Lemma working_square_edge_witness :
  width (working_square (FO := binary64) lerp255 (gradient 1000 40)) = 40 /\
  height (working_square (FO := binary64) lerp255 (gradient 1000 40)) = 40 /\
  width (working_square (FO := binary64) lerp255 (gradient 4 400)) = 0.
Proof.
  assert (H1 : 1 <= width (gradient 1000 40) < 2 ^ 31) by (cbn; lia).
  assert (H2 : 1 <= height (gradient 1000 40) < 2 ^ 31) by (cbn; lia).
  assert (H3 : 1 <= width (gradient 4 400) < 2 ^ 31) by (cbn; lia).
  assert (H4 : 1 <= height (gradient 4 400) < 2 ^ 31) by (cbn; lia).
  destruct (working_square_edge lerp255 (gradient 1000 40) H1 H2) as (Ha & Hb & _).
  destruct (working_square_edge lerp255 (gradient 4 400) H3 H4) as (Hc & _ & _).
  rewrite Ha, Hb, Hc. repeat split; vm_compute; reflexivity.
Defined.

Lemma crop_region_facts (w h : Z) :
  1 <= w < 2 ^ 31 -> 1 <= h < 2 ^ 31 ->
  let b := crop_region (FO := binary64) w h in
  0 <= left b /\ right b <= w /\ 0 <= top b /\ bottom b <= h /\
  0 <= crop_height b <= crop_width b.
Proof.
  intros Hw Hh. cbv zeta. rewrite crop_region_binary64 by assumption.
  unfold crop_width, crop_height. cbv zeta. cbn [left top right bottom].
  change (2 ^ 31) with 2147483648 in *. zdiv.
Qed.

(** X8: [crop] is only ever asked for pixels of the source: every pixel of
    the cropped raster is the source pixel at the region's offset, never
    the fill value of an out-of-range read. *)
Theorem crop_reads_inside_source (original : Image) (x y : Z) :
  1 <= width original < 2 ^ 31 -> 1 <= height original < 2 ^ 31 ->
  let b := crop_region (FO := binary64) (width original) (height original) in
  let cropped := crop original (left b, top b, right b, bottom b) in
  inside cropped x y = true ->
  inside original (x + left b) (y + top b) = true /\
  getpixel cropped x y = getpixel original (x + left b) (y + top b).
Proof.
  intros Hw Hh b cropped Hin.
  destruct (crop_region_facts (width original) (height original) Hw Hh)
    as (Hl & Hr & Ht & Hb & Hd).
  fold b in Hl, Hr, Ht, Hb, Hd.
  assert (E : inside original (x + left b) (y + top b) = true).
  { revert Hin. unfold inside, cropped, crop. cbn [width height].
    rewrite !andb_true_iff, !Z.leb_le, !Z.ltb_lt. lia. }
  split; [exact E |]. unfold cropped, crop. cbn [getpixel]. now rewrite E.
Qed.

Lemma crop_reads_inside_source_witness :
  getpixel (crop logo_800x400 (240, 56, 560, 376)) 0 0 = mkPixel 240 56 128 255.
Proof.
  assert (Hw : 1 <= width logo_800x400 < 2 ^ 31) by (cbn; lia).
  assert (Hh : 1 <= height logo_800x400 < 2 ^ 31) by (cbn; lia).
  assert (Hin : inside (crop logo_800x400 (240, 56, 560, 376)) 0 0 = true)
    by (vm_compute; reflexivity).
  pose proof (crop_reads_inside_source logo_800x400 0 0 Hw Hh) as H.
  cbv zeta in H.
  replace (crop_region (FO := binary64) (width logo_800x400) (height logo_800x400))
    with (mkBox 240 56 560 376) in H by (vm_compute; reflexivity).
  cbn [left top right bottom] in H. destruct (H Hin) as [_ ->].
  vm_compute. reflexivity.
Defined.

Lemma crop_region_inside_binary64_witness :
  let b := crop_region (FO := binary64) 90 40 in
  0 <= left b <= right b /\ right b <= 90 /\
  0 <= top b <= bottom b /\ bottom b <= 40.
Proof. apply (crop_region_inside_binary64 90 40); lia. Defined.

(** ** Margins of an icon of any size *)

(** X17: for every size below 2^31 the logo edge
    [int(size * (1 - padding_percent * 2))] is four fifths of the size,
    rounded down. *)
Theorem logo_size_closed_form (s : Z) :
  0 <= s < 2 ^ 31 -> logo_size (FO := binary64) s = 4 * s / 5.
Proof. apply logo_size_floor. Qed.

Lemma logo_size_closed_form_witness : logo_size (FO := binary64) 1000 = 800.
Proof. rewrite (logo_size_closed_form 1000) by lia. reflexivity. Defined.

(** X10: for every size of at least 2 pixels, the logo edge lies in
    [1, size), each leading margin is within one pixel of a tenth of the
    size and the trailing margin equals it or exceeds it by one pixel. *)
Theorem logo_margins (s : Z) :
  2 <= s < 2 ^ 31 ->
  let edge := logo_size (FO := binary64) s in
  let off := offset (FO := binary64) s in
  1 <= edge < s /\
  s / 10 <= off <= s / 10 + 1 /\
  off <= s - edge - off <= off + 1.
Proof.
  intros Hs. cbv zeta. unfold offset. rewrite logo_size_floor by lia. zdiv.
Qed.

Lemma logo_margins_witness :
  1 <= logo_size (FO := binary64) 100 < 100 /\
  100 / 10 <= offset (FO := binary64) 100 <= 100 / 10 + 1.
Proof.
  destruct (logo_margins 100) as (H1 & H2 & _); [lia |]. split; assumption.
Defined.

(** ** What an icon shows *)

Section IconPixels.
Context {F : Type} {FO : PyFloat F}.
Variable blend : Z -> Z -> Z -> Z.
Variable resample : Image -> Z * Z -> Z -> Z -> pixel.

(** The pixel of a finished icon, in terms of the pixel of the resized
    logo that falls on it. *)
Lemma make_icon_pixel (square : Image) (size x y : Z) :
  let logo := resize resample square (logo_size size, logo_size size) in
  let under :=
    if inside logo (x - offset size) (y - offset size) then
      blend_pixel blend
        (band_a (getpixel logo (x - offset size) (y - offset size)))
        (ink RGBA BACKGROUND_COLOR)
        (convert_pixel (mode square) RGBA
           (getpixel logo (x - offset size) (y - offset size)))
    else ink RGBA BACKGROUND_COLOR in
  getpixel (make_icon blend resample square size) x y =
    if (0 <=? x) && (x <? size) && (0 <=? y) && (y <? size) then
      blend_pixel blend (band_a under) (ink RGB (take 3 BACKGROUND_COLOR))
        (convert_pixel RGBA RGB under)
    else ink RGB (take 3 BACKGROUND_COLOR).
Proof.
  cbv zeta. unfold make_icon, paste, new, resize, inside.
  cbn [getpixel mode width height fst snd]. rewrite !Z.sub_0_r. reflexivity.
Qed.

(** X11: if a mask value of 255 makes the blend return the source band,
    every pixel of an icon outside the box of the pasted logo has the
    background colour (10, 10, 10). *)
Theorem icon_margin_is_background (square : Image) (size x y : Z) :
  (forall d s : Z, blend 255 d s = s) ->
  inside (resize resample square (logo_size size, logo_size size))
         (x - offset size) (y - offset size) = false ->
  getpixel (make_icon blend resample square size) x y = mkPixel 10 10 10 255.
Proof.
  intros Hfull Hout. rewrite make_icon_pixel. cbv zeta. rewrite Hout.
  destruct (_ && _); [| reflexivity].
  unfold blend_pixel. cbn. now rewrite !Hfull.
Qed.

(** X12: if moreover a mask value of 0 makes the blend return the
    destination band, the icon also keeps the background colour wherever
    the resized logo is fully transparent. *)
Theorem icon_background_under_transparent_logo (square : Image) (size x y : Z) :
  (forall d s : Z, blend 255 d s = s) ->
  (forall d s : Z, blend 0 d s = d) ->
  band_a (resample square (logo_size size, logo_size size)
            (x - offset size) (y - offset size)) = 0 ->
  getpixel (make_icon blend resample square size) x y = mkPixel 10 10 10 255.
Proof.
  intros Hfull Hzero Ha. rewrite make_icon_pixel. cbv zeta.
  set (lp := getpixel (resize resample square (logo_size size, logo_size size))
               (x - offset size) (y - offset size)).
  assert (Hlp : band_a lp = 0) by exact Ha.
  rewrite Hlp.
  assert (E : forall p, blend_pixel blend 0 (ink RGBA BACKGROUND_COLOR) p
                        = mkPixel 10 10 10 255).
  { intros p. unfold blend_pixel. cbn. now rewrite !Hzero. }
  rewrite E.
  match goal with
  | |- context [if ?c then mkPixel 10 10 10 255 else ink RGBA BACKGROUND_COLOR] =>
      replace (if c then mkPixel 10 10 10 255 else ink RGBA BACKGROUND_COLOR)
        with (mkPixel 10 10 10 255) by (destruct c; reflexivity)
  end.
  destruct (_ && _); [| reflexivity].
  unfold blend_pixel. cbn. now rewrite !Hfull.
Qed.

(** X13: under the same condition on a mask value of 255, a pixel of the
    canvas on which a fully opaque pixel of the resized RGBA logo falls
    shows that pixel's three colour bands unchanged. *)
Theorem icon_shows_opaque_logo (square : Image) (size x y : Z) :
  (forall d s : Z, blend 255 d s = s) ->
  mode square = RGBA ->
  0 <= x < size -> 0 <= y < size ->
  let logo := resize resample square (logo_size size, logo_size size) in
  inside logo (x - offset size) (y - offset size) = true ->
  band_a (getpixel logo (x - offset size) (y - offset size)) = 255 ->
  let p := getpixel logo (x - offset size) (y - offset size) in
  getpixel (make_icon blend resample square size) x y =
    mkPixel (band_r p) (band_g p) (band_b p) 255.
Proof.
  intros Hfull Hm Hx Hy logo Hin Ha p. rewrite make_icon_pixel. cbv zeta.
  fold logo. rewrite Hin. fold p. rewrite Hm.
  assert (Hc : (0 <=? x) && (x <? size) && (0 <=? y) && (y <? size) = true).
  { rewrite !andb_true_iff, !Z.leb_le, !Z.ltb_lt. lia. }
  rewrite Hc. assert (Hp : band_a p = 255) by exact Ha. clearbody p.
  unfold blend_pixel. cbn. rewrite !Hp, !Hfull. reflexivity.
Qed.
End IconPixels.

Lemma lerp255_full (d s : Z) : lerp255 255 d s = s.
Proof. unfold lerp255. zdiv. Defined.

Lemma lerp255_zero (d s : Z) : lerp255 0 d s = d.
Proof. unfold lerp255. zdiv. Defined.

Lemma icon_margin_is_background_witness :
  getpixel (make_icon (FO := binary64) lerp255 nearest
              (working_square (FO := binary64) lerp255 logo_800x400) 72) 3 70
  = mkPixel 10 10 10 255.
Proof.
  apply (icon_margin_is_background (FO := binary64) lerp255 nearest).
  - exact lerp255_full.
  - vm_compute. reflexivity.
Defined.

Lemma icon_background_under_transparent_logo_witness :
  getpixel (make_icon (FO := binary64) lerp255 nearest
              (working_square (FO := binary64) lerp255 (gradient 1000 40)) 72) 20 7
  = mkPixel 10 10 10 255.
Proof.
  apply (icon_background_under_transparent_logo (FO := binary64) lerp255 nearest).
  - exact lerp255_full.
  - exact lerp255_zero.
  - vm_compute. reflexivity.
Defined.

Lemma icon_shows_opaque_logo_witness :
  getpixel (make_icon (FO := binary64) lerp255 nearest
              (working_square (FO := binary64) lerp255 logo_800x400) 72) 36 36
  = mkPixel 146 218 128 255.
Proof.
  rewrite (icon_shows_opaque_logo (FO := binary64) lerp255 nearest
             (working_square (FO := binary64) lerp255 logo_800x400) 72 36 36).
  - vm_compute. reflexivity.
  - exact lerp255_full.
  - reflexivity.
  - lia.
  - lia.
  - vm_compute. reflexivity.
  - vm_compute. reflexivity.
Defined.

(** ** What the script reports *)

Lemma report_lines_explicit :
  report_lines =
    ["Generating 72x72 icon..."; "  ✓ Saved: image/icon-72x72.png";
     "Generating 96x96 icon..."; "  ✓ Saved: image/icon-96x96.png";
     "Generating 128x128 icon..."; "  ✓ Saved: image/icon-128x128.png";
     "Generating 144x144 icon..."; "  ✓ Saved: image/icon-144x144.png";
     "Generating 152x152 icon..."; "  ✓ Saved: image/icon-152x152.png";
     "Generating 192x192 icon..."; "  ✓ Saved: image/icon-192x192.png";
     "Generating 384x384 icon..."; "  ✓ Saved: image/icon-384x384.png";
     "Generating 512x512 icon..."; "  ✓ Saved: image/icon-512x512.png";
     nl +:+ "✅ All PWA icons generated successfully!";
     nl +:+ "Icons created in 'image/' folder:";
     "  • icon-72x72.png"; "  • icon-96x96.png"; "  • icon-128x128.png";
     "  • icon-144x144.png"; "  • icon-152x152.png"; "  • icon-192x192.png";
     "  • icon-384x384.png"; "  • icon-512x512.png"].
Proof. vm_compute. reflexivity. Qed.

Ltac split_lines H :=
  repeat (apply elem_of_cons in H; destruct H as [H | H]);
  [.. | apply elem_of_nil in H; contradiction].

Ltac line_eq H := vm_compute in H; simplify_eq.

Ltac closed_member := apply (bool_decide_unpack _); vm_compute; reflexivity.

Section Report.
Context {F : Type} {FO : PyFloat F}.
Variable blend : Z -> Z -> Z -> Z.
Variable resample : Image -> Z * Z -> Z -> Z -> pixel.

(** X15: on a successful run the lines that report a saved file name
    exactly the paths the loop writes, and the closing list names exactly
    the file names of those paths inside the output directory. *)
Theorem report_matches_written_files (fs : files) (src : Image) :
  open fs SOURCE_LOGO = Some src ->
  (forall p : string,
      ("  ✓ Saved: " +:+ p) ∈ stdout fs <-> p ∈ output_path <$> ICON_SIZES) /\
  (forall name : string,
      ("  • " +:+ name) ∈ stdout fs <->
      (OUTPUT_DIR +:+ "/" +:+ name) ∈ output_path <$> ICON_SIZES).
Proof.
  intros Ho. unfold stdout. rewrite Ho. cbv zeta.
  rewrite output_paths, report_lines_explicit. split.
  - intros p. split; intros H.
    + do 3 (apply elem_of_cons in H; destruct H as [H | H]; [discriminate H |]).
      split_lines H; line_eq H; closed_member.
    + do 3 apply list_elem_of_further.
      split_lines H; subst p; closed_member.
  - intros name. split; intros H.
    + do 3 (apply elem_of_cons in H; destruct H as [H | H]; [discriminate H |]).
      split_lines H; line_eq H; closed_member.
    + do 3 apply list_elem_of_further.
      split_lines H; line_eq H; closed_member.
Qed.
End Report.

Lemma report_matches_written_files_witness :
  ("  ✓ Saved: " +:+ "image/icon-72x72.png") ∈ stdout (FO := binary64) storage /\
  ("  • " +:+ "icon-512x512.png") ∈ stdout (FO := binary64) storage.
Proof.
  destruct (report_matches_written_files (FO := binary64) storage logo_800x400
              storage_holds_logo) as [Hs Hn].
  split.
  - apply Hs. rewrite output_paths. closed_member.
  - apply Hn. rewrite output_paths. closed_member.
Defined.

(** ** From the source to the working square *)

Lemma pad_square_pixel (blend : Z -> Z -> Z -> Z) (cropped : Image) (x y : Z) :
  let max_dim := Z.max (width cropped) (height cropped) in
  let paste_x := (max_dim - width cropped) / 2 in
  let paste_y := (max_dim - height cropped) / 2 in
  getpixel (pad_square blend cropped) x y =
    if inside cropped (x - paste_x) (y - paste_y) then
      blend_pixel blend (band_a (getpixel cropped (x - paste_x) (y - paste_y)))
        transparent
        (convert_pixel (mode cropped) RGBA
           (getpixel cropped (x - paste_x) (y - paste_y)))
    else transparent.
Proof. reflexivity. Qed.

(** X16: if a mask value of 255 makes the blend return the source band,
    cropping and padding carry every fully opaque pixel of an RGBA source
    unchanged into the working square: no column is added, and the rows
    are shifted by the padding above the crop. *)
Theorem working_square_keeps_opaque_pixels
    (blend : Z -> Z -> Z -> Z) (original : Image) (x y : Z) :
  (forall d s : Z, blend 255 d s = s) ->
  mode original = RGBA ->
  1 <= width original < 2 ^ 31 -> 1 <= height original < 2 ^ 31 ->
  let b := crop_region (FO := binary64) (width original) (height original) in
  let pad := (crop_width b - crop_height b) / 2 in
  0 <= x < crop_width b ->
  pad <= y < pad + crop_height b ->
  band_a (getpixel original (x + left b) (y - pad + top b)) = 255 ->
  getpixel (working_square (FO := binary64) blend original) x y =
    getpixel original (x + left b) (y - pad + top b).
Proof.
  intros Hfull Hm Hw Hh b pad Hx Hy Ha.
  destruct (crop_region_facts (width original) (height original) Hw Hh)
    as (Hl & Hr & Ht & Hb & Hd).
  fold b in Hl, Hr, Ht, Hb, Hd.
  unfold working_square. cbv zeta. fold b.
  set (cropped := crop original (left b, top b, right b, bottom b)).
  rewrite pad_square_pixel. cbv zeta.
  change (width cropped) with (crop_width b).
  change (height cropped) with (crop_height b).
  rewrite (Z.max_l (crop_width b) (crop_height b)) by lia.
  rewrite Z.sub_diag, Z.div_0_l by lia. rewrite Z.sub_0_r. fold pad.
  assert (Hin : inside cropped x (y - pad) = true).
  { unfold inside. change (width cropped) with (crop_width b).
    change (height cropped) with (crop_height b).
    rewrite !andb_true_iff, !Z.leb_le, !Z.ltb_lt. lia. }
  rewrite Hin.
  assert (Hsrc : inside original (x + left b) (y - pad + top b) = true).
  { unfold inside. unfold crop_width, crop_height in *.
    rewrite !andb_true_iff, !Z.leb_le, !Z.ltb_lt. lia. }
  assert (Hpx : getpixel cropped x (y - pad) =
                getpixel original (x + left b) (y - pad + top b)).
  { unfold cropped, crop. cbn [getpixel]. now rewrite Hsrc. }
  change (mode cropped) with (mode original).
  rewrite Hpx, Hm, Ha.
  destruct (getpixel original (x + left b) (y - pad + top b)) as [r g bl a].
  cbn in Ha. subst a. unfold blend_pixel. cbn. now rewrite !Hfull.
Qed.

Lemma working_square_keeps_opaque_pixels_witness :
  getpixel (working_square (FO := binary64) lerp255 (gradient 1000 40)) 5 3 =
  getpixel (gradient 1000 40) 485 4.
Proof.
  assert (H1 : 1 <= width (gradient 1000 40) < 2 ^ 31) by (cbn; lia).
  assert (H2 : 1 <= height (gradient 1000 40) < 2 ^ 31) by (cbn; lia).
  pose proof (working_square_keeps_opaque_pixels lerp255 (gradient 1000 40) 5 3
                lerp255_full eq_refl H1 H2) as H.
  cbv zeta in H.
  replace (crop_region (FO := binary64) (width (gradient 1000 40)) (height (gradient 1000 40)))
    with (mkBox 480 2 520 40) in H by (vm_compute; reflexivity).
  rewrite H.
  - vm_compute. reflexivity.
  - vm_compute. split; [discriminate | reflexivity].
  - vm_compute. split; [discriminate | reflexivity].
  - vm_compute. reflexivity.
Defined.
